(** * bird_finder_backend: a shallow embedding of the Flask handlers

    The development follows [src/bird_finder_backend.py].  Python values
    that arrive through [request.get_json()] are JSON values; the handlers
    read them with [data.get(field)] and test them with Python truthiness,
    so the request body is kept as a JSON value here and not as a typed
    record.  The SQLite store is a record of tables, each table a list of
    rows in insertion order; a handler is a function from the store (and the
    request) to a response and a new store.

    Conventions of the model
    - a Python [str] is a [string]; one [ascii] stands for one character
      (the Latin-1 part of Unicode);
    - Python [float]s and SQL REAL columns are read as exact rationals [Q];
    - an exception raised inside a handler's [try] block is the value
      [Raise msg]; the [except Exception] clause turns it into status 500. *)

From Stdlib Require Import ZArith QArith Qabs Qround List String Ascii Bool Lia Lqa.
From Stdlib Require Import Permutation Sorted.
Import ListNotations.

Local Open Scope string_scope.
Local Open Scope Z_scope.

(** ** Python primitives *)

Module Py.

(** Results of code that may raise. *)
Inductive result (A : Type) : Type :=
| Ok (a : A)
| Raise (msg : string).
Arguments Ok {A} a.
Arguments Raise {A} msg.

Definition bind {A B} (r : result A) (k : A -> result B) : result B :=
  match r with
  | Ok a => k a
  | Raise m => Raise m
  end.

Notation "x <- c ;; k" := (bind c (fun x => k))
  (at level 61, c at next level, right associativity).

Definition code (c : ascii) : nat := nat_of_ascii c.

Definition is_upper_ascii (c : ascii) : bool :=
  (Nat.leb 65 (code c) && Nat.leb (code c) 90)%bool.

(** Upper-case letters of Latin-1 beyond ASCII: U+00C0..U+00DE except the
    multiplication sign U+00D7. *)
Definition is_upper_latin1 (c : ascii) : bool :=
  (Nat.leb 192 (code c) && Nat.leb (code c) 222 && negb (Nat.eqb (code c) 215))%bool.

(** [str.lower()] on one character. *)
Definition lower_char (c : ascii) : ascii :=
  if (is_upper_ascii c || is_upper_latin1 c)%bool
  then ascii_of_nat (code c + 32) else c.

Fixpoint lower (s : string) : string :=
  match s with
  | EmptyString => EmptyString
  | String c r => String (lower_char c) (lower r)
  end.

(** [c in s] for a one-character needle. *)
Fixpoint contains_char (c : ascii) (s : string) : bool :=
  match s with
  | EmptyString => false
  | String a r => (Ascii.eqb a c || contains_char c r)%bool
  end.

(** [s.rsplit(c, 1)] when [c] occurs in [s]: the text before the last
    occurrence and the text after it. *)
Fixpoint rsplit1 (c : ascii) (s : string) : option (string * string) :=
  match s with
  | EmptyString => None
  | String a r =>
      match rsplit1 c r with
      | Some (h, t) => Some (String a h, t)
      | None => if Ascii.eqb a c then Some (EmptyString, r) else None
      end
  end.

(** [s.replace(old, new)] for a one-character [old]: every occurrence is
    replaced, left to right. *)
Fixpoint replace_char (old : ascii) (new : string) (s : string) : string :=
  match s with
  | EmptyString => EmptyString
  | String a r =>
      if Ascii.eqb a old then new ++ replace_char old new r
      else String a (replace_char old new r)
  end.

Definition mem_string (s : string) (l : list string) : bool :=
  existsb (String.eqb s) l.

End Py.
Export Py.

(** ** JSON values, as [request.get_json()] and [json.loads] build them *)

#[local] Set Warnings "-register-all".

Inductive json : Type :=
| JNull
| JBool (b : bool)
| JInt (z : Z)
| JFloat (m : Z) (e : Z)   (* the decimal m * 10^e *)
| JStr (s : string)
| JArr (l : list json)
| JObj (d : list (string * json)).

(** Python truthiness, [bool(v)]. *)
Definition truthy (v : json) : bool :=
  match v with
  | JNull => false
  | JBool b => b
  | JInt z => negb (z =? 0)
  | JFloat m _ => negb (m =? 0)
  | JStr s => negb (String.eqb s "")
  | JArr l => match l with [] => false | _ => true end
  | JObj d => match d with [] => false | _ => true end
  end.

(** A [dict] is an association list with its keys in insertion order. *)
Definition dict := list (string * json).

Fixpoint dict_lookup (k : string) (d : dict) : option json :=
  match d with
  | [] => None
  | (k', v) :: r => if String.eqb k k' then Some v else dict_lookup k r
  end.

(** [d[k] = v]: an existing key keeps its position. *)
Fixpoint dict_set (k : string) (v : json) (d : dict) : dict :=
  match d with
  | [] => [(k, v)]
  | (k', v') :: r =>
      if String.eqb k k' then (k, v) :: r else (k', v') :: dict_set k v r
  end.

Definition lookup_or (d : dict) (k : string) (default : json) : json :=
  match dict_lookup k d with
  | Some v => v
  | None => default
  end.

(** [data.get(k, default)]; on a body that is not an object the attribute
    lookup raises. *)
Definition get_default (data : json) (k : string) (default : json) : result json :=
  match data with
  | JObj d => Ok (lookup_or d k default)
  | _ => Raise "object has no attribute 'get'"
  end.

(** [data.get(k)]: [None] when the key is absent. *)
Definition get (data : json) (k : string) : result json :=
  get_default data k JNull.

(** A field of a reply's body. *)
Definition field (v : json) (k : string) : option json :=
  match v with
  | JObj d => dict_lookup k d
  | _ => None
  end.

(** [data[k]]. *)
Definition getitem (data : json) (k : string) : result json :=
  match data with
  | JObj d =>
      match dict_lookup k d with
      | Some v => Ok v
      | None => Raise ("KeyError: " ++ k)
      end
  | _ => Raise "object is not subscriptable"
  end.

(** ** [datetime]: [fromisoformat] and [isoformat]

    [datetime.fromisoformat] is the standard library's parser for the
    format [YYYY-MM-DD[*HH[:MM[:SS[.fff[fff]]]][+HH:MM[:SS[.ffffff]]]]];
    the field ranges are those the [datetime] constructor checks. *)

Module Datetime.

Record datetime : Type := mkDatetime {
  year : Z; month : Z; day : Z;
  hour : Z; minute : Z; second : Z; microsecond : Z;
  tzoffset : option Z          (* UTC offset in microseconds, when aware *)
}.

Definition digit (c : ascii) : option Z :=
  let n := code c in
  if (Nat.leb 48 n && Nat.leb n 57)%bool then Some (Z.of_nat (n - 48)) else None.

(** Exactly [n] decimal digits at the head of [s]. *)
Fixpoint digits (n : nat) (acc : Z) (s : string) : option (Z * string) :=
  match n with
  | O => Some (acc, s)
  | S n' =>
      match s with
      | String c r =>
          match digit c with
          | Some d => digits n' (10 * acc + d) r
          | None => None
          end
      | EmptyString => None
      end
  end.

Definition expect (c : ascii) (s : string) : option string :=
  match s with
  | String a r => if Ascii.eqb a c then Some r else None
  | EmptyString => None
  end.

Definition is_leap (y : Z) : bool :=
  ((y mod 4 =? 0) && (negb (y mod 100 =? 0) || (y mod 400 =? 0)))%bool.

Definition days_in_month (y m : Z) : Z :=
  if m =? 2 then (if is_leap y then 29 else 28)
  else if (m =? 4) || (m =? 6) || (m =? 9) || (m =? 11) then 30
  else 31.

Definition valid_date (y m d : Z) : bool :=
  ((1 <=? y) && (y <=? 9999) && (1 <=? m) && (m <=? 12) &&
   (1 <=? d) && (d <=? days_in_month y m))%bool.

Definition valid_time (h mi s : Z) : bool :=
  ((h <? 24) && (mi <? 60) && (s <? 60))%bool.

(** [HH[:MM[:SS[.fff[fff]]]]] at the head of [s]; the rest is returned. *)
Definition parse_hh_mm_ss_ff (s : string) : option (Z * Z * Z * Z * string) :=
  match digits 2 0 s with
  | None => None
  | Some (h, r1) =>
      match expect ":" r1 with
      | None => Some (h, 0, 0, 0, r1)
      | Some r2 =>
          match digits 2 0 r2 with
          | None => None
          | Some (mi, r3) =>
              match expect ":" r3 with
              | None => Some (h, mi, 0, 0, r3)
              | Some r4 =>
                  match digits 2 0 r4 with
                  | None => None
                  | Some (sec, r5) =>
                      match expect "." r5 with
                      | None => Some (h, mi, sec, 0, r5)
                      | Some r6 =>
                          match digits 6 0 r6 with
                          | Some (us, r7) => Some (h, mi, sec, us, r7)
                          | None =>
                              match digits 3 0 r6 with
                              | Some (ms, r7) => Some (h, mi, sec, 1000 * ms, r7)
                              | None => None
                              end
                          end
                      end
                  end
              end
          end
      end
  end.

Definition day_us : Z := 24 * 3600 * 1000000.

(** The UTC offset after the time: nothing, or a sign and [HH:MM[:SS[.ffffff]]]. *)
Definition parse_tz (s : string) : option (option Z) :=
  match s with
  | EmptyString => Some None
  | String c r =>
      let sign := if Ascii.eqb c "+" then Some 1
                  else if Ascii.eqb c "-" then Some (-1) else None in
      match sign with
      | None => None
      | Some sg =>
          match parse_hh_mm_ss_ff r with
          | Some (h, mi, sec, us, EmptyString) =>
              let len := String.length r in
              if ((Nat.eqb len 5 || Nat.eqb len 8 || Nat.eqb len 15) &&
                  (((h * 60 + mi) * 60 + sec) * 1000000 + us <? day_us))%bool
              then Some (Some (sg * ((((h * 60 + mi) * 60 + sec) * 1000000) + us)))
              else None
          | _ => None
          end
      end
  end.

Definition fromisoformat (s : string) : option datetime :=
  match digits 4 0 s with
  | None => None
  | Some (y, r1) =>
  match expect "-" r1 with
  | None => None
  | Some r2 =>
  match digits 2 0 r2 with
  | None => None
  | Some (m, r3) =>
  match expect "-" r3 with
  | None => None
  | Some r4 =>
  match digits 2 0 r4 with
  | None => None
  | Some (d, r5) =>
      if negb (valid_date y m d) then None else
      match r5 with
      | EmptyString => Some (mkDatetime y m d 0 0 0 0 None)
      | String _ r6 =>
          match parse_hh_mm_ss_ff r6 with
          | None => None
          | Some (h, mi, sec, us, r7) =>
              if negb (valid_time h mi sec) then None else
              match parse_tz r7 with
              | None => None
              | Some tz => Some (mkDatetime y m d h mi sec us tz)
              end
          end
      end
  end end end end end.

(** Decimal text of a non-negative number, left-padded with zeros to
    [width] digits. *)
Fixpoint pad_digits (width : nat) (n : Z) (acc : string) : string :=
  match width with
  | O => acc
  | S w => pad_digits w (n / 10) (String (ascii_of_nat (48 + Z.to_nat (n mod 10))) acc)
  end.

Definition pad (width : nat) (n : Z) : string := pad_digits width n "".

Definition isoformat_offset (off : Z) : string :=
  let sg := if off <? 0 then "-" else "+" in
  let a := Z.abs off in
  let us := a mod 1000000 in
  let secs := a / 1000000 in
  let h := secs / 3600 in
  let mi := (secs / 60) mod 60 in
  let sec := secs mod 60 in
  sg ++ pad 2 h ++ ":" ++ pad 2 mi ++
  (if (sec =? 0) && (us =? 0) then ""
   else ":" ++ pad 2 sec ++ (if us =? 0 then "" else "." ++ pad 6 us)).

(** [dt.isoformat()]. *)
Definition isoformat (dt : datetime) : string :=
  pad 4 (year dt) ++ "-" ++ pad 2 (month dt) ++ "-" ++ pad 2 (day dt) ++ "T" ++
  pad 2 (hour dt) ++ ":" ++ pad 2 (minute dt) ++ ":" ++ pad 2 (second dt) ++
  (if microsecond dt =? 0 then "" else "." ++ pad 6 (microsecond dt)) ++
  match tzoffset dt with
  | None => ""
  | Some off => isoformat_offset off
  end.

(** The order of naive timestamps, as a key: what [ORDER BY created_at]
    and [created_at >= ...] compare. *)
Definition key (dt : datetime) : Z :=
  (((((year dt * 13 + month dt) * 32 + day dt) * 24 + hour dt) * 60
      + minute dt) * 60 + second dt) * 1000000 + microsecond dt.

End Datetime.
Export Datetime.

(** ** [json.dumps] and [json.loads]

    [dumps] is Python's encoder with its defaults: separators [", "] and
    [": "], [ensure_ascii], keys in insertion order.  [loads] is the
    decoder: a recursive descent over the text, here with the recursion
    depth bounded by the length of the text. *)

Module Json.

(** The double quote character. *)
Definition dq : ascii := ascii_of_nat 34.

Definition digit_char (d : Z) : ascii := ascii_of_nat (48 + Z.to_nat d).

Fixpoint show_nat_aux (fuel : nat) (n : Z) : string :=
  match fuel with
  | O => ""
  | S f =>
      if n <? 10 then String (digit_char n) ""
      else show_nat_aux f (n / 10) ++ String (digit_char (n mod 10)) ""
  end.

(** Decimal text of [n >= 0]. *)
Definition show_nat (n : Z) : string :=
  show_nat_aux (S (Z.to_nat (Z.log2 n))) n.

Definition show_Z (z : Z) : string :=
  if z <? 0 then String "-" (show_nat (- z)) else show_nat z.

Definition hex_char (n : nat) : ascii :=
  if Nat.ltb n 10 then ascii_of_nat (48 + n) else ascii_of_nat (87 + n).

(** One character of a string literal, escaped as [ensure_ascii] does. *)
Definition escape_char (c : ascii) : string :=
  let n := code c in
  if Nat.eqb n 34 then String "\" (String dq "")
  else if Nat.eqb n 92 then "\\"
  else if Nat.eqb n 10 then "\n"
  else if Nat.eqb n 13 then "\r"
  else if Nat.eqb n 9 then "\t"
  else if Nat.eqb n 8 then "\b"
  else if Nat.eqb n 12 then "\f"
  else if (Nat.leb 32 n && Nat.leb n 126)%bool then String c ""
  else String "\" (String "u" (String "0" (String "0"
         (String (hex_char (n / 16)%nat) (String (hex_char (n mod 16)%nat) ""))))).

Fixpoint escape (s : string) : string :=
  match s with
  | EmptyString => EmptyString
  | String c r => escape_char c ++ escape r
  end.

Definition dumps_string (s : string) : string :=
  String dq (escape s ++ String dq "").

Definition dumps_elems (f : json -> string) : list json -> string :=
  fix go (l : list json) : string :=
    match l with
    | [] => ""
    | x :: r =>
        match r with
        | [] => f x
        | _ :: _ => f x ++ ", " ++ go r
        end
    end.

Definition dumps_members (f : json -> string) : list (string * json) -> string :=
  fix go (d : list (string * json)) : string :=
    match d with
    | [] => ""
    | (k, x) :: r =>
        match r with
        | [] => dumps_string k ++ ": " ++ f x
        | _ :: _ => dumps_string k ++ ": " ++ f x ++ ", " ++ go r
        end
    end.

Fixpoint dumps (v : json) : string :=
  match v with
  | JNull => "null"
  | JBool true => "true"
  | JBool false => "false"
  | JInt z => show_Z z
  | JFloat m e => show_Z m ++ String "e" (show_Z e)
  | JStr s => dumps_string s
  | JArr l => String "[" (dumps_elems dumps l ++ "]")
  | JObj d => String "{" (dumps_members dumps d ++ "}")
  end.

(** *** The decoder *)

Definition is_ws (c : ascii) : bool :=
  let n := code c in
  (Nat.eqb n 32 || Nat.eqb n 9 || Nat.eqb n 10 || Nat.eqb n 13)%bool.

Fixpoint skip_ws (s : string) : string :=
  match s with
  | String c r => if is_ws c then skip_ws r else s
  | EmptyString => EmptyString
  end.

(** The digits at the head of [s]: their value on top of [acc], their
    number on top of [cnt], and the rest. *)
Fixpoint read_digits (acc : Z) (cnt : nat) (s : string) : Z * nat * string :=
  match s with
  | String c r =>
      match digit c with
      | Some d => read_digits (10 * acc + d) (S cnt) r
      | None => (acc, cnt, s)
      end
  | EmptyString => (acc, cnt, s)
  end.

(** The integer part [0|[1-9][0-9]*]. *)
Definition read_int_part (s : string) : option (Z * string) :=
  match s with
  | String c r =>
      match digit c with
      | Some d =>
          if d =? 0 then Some (0, r)
          else let '(n, _, r') := read_digits d 1 r in Some (n, r')
      | None => None
      end
  | EmptyString => None
  end.

(** The fraction [(\.[0-9]+)?]: value and number of its digits. *)
Definition read_frac (s : string) : option (Z * nat) * string :=
  match expect "." s with
  | Some r =>
      let '(n, k, r') := read_digits 0 0 r in
      match k with O => (None, s) | S _ => (Some (n, k), r') end
  | None => (None, s)
  end.

(** The exponent [([eE][-+]?[0-9]+)?]. *)
Definition read_sign (s : string) : Z * string :=
  match expect "-" s with
  | Some r => (-1, r)
  | None =>
      match expect "+" s with
      | Some r => (1, r)
      | None => (1, s)
      end
  end.

Definition read_exp (s : string) : option Z * string :=
  match s with
  | String c r =>
      if (Ascii.eqb c "e" || Ascii.eqb c "E")%bool then
        let '(sg, r1) := read_sign r in
        let '(n, k, r2) := read_digits 0 0 r1 in
        match k with O => (None, s) | S _ => (Some (sg * n), r2) end
      else (None, s)
  | EmptyString => (None, s)
  end.

(** A number: an [int] when it has neither fraction nor exponent, else a
    [float]. *)
Definition read_signed_int (s : string) : option (Z * Z * string) :=
  let '(sg, s1) := match expect "-" s with Some r => (-1, r) | None => (1, s) end in
  match read_int_part s1 with
  | Some (n, r) => Some (sg, n, r)
  | None => None
  end.

Definition parse_number (s : string) : option (json * string) :=
  match read_signed_int s with
  | None => None
  | Some (sg, n, r) =>
      let '(fr, r1) := read_frac r in
      let '(ex, r2) := read_exp r1 in
      match fr, ex with
      | None, None => Some (JInt (sg * n), r2)
      | Some (f, k), None => Some (JFloat (sg * (n * 10 ^ Z.of_nat k + f)) (- Z.of_nat k), r2)
      | None, Some e => Some (JFloat (sg * n) e, r2)
      | Some (f, k), Some e =>
          Some (JFloat (sg * (n * 10 ^ Z.of_nat k + f)) (e - Z.of_nat k), r2)
      end
  end.

Definition hex_val (c : ascii) : option nat :=
  let n := code c in
  if (Nat.leb 48 n && Nat.leb n 57)%bool then Some (n - 48)%nat
  else if (Nat.leb 97 n && Nat.leb n 102)%bool then Some (n - 87)%nat
  else if (Nat.leb 65 n && Nat.leb n 70)%bool then Some (n - 55)%nat
  else None.

Definition hex4 (a b c d : ascii) : option nat :=
  match hex_val a, hex_val b, hex_val c, hex_val d with
  | Some x, Some y, Some z, Some w => Some (((x * 16 + y) * 16 + z) * 16 + w)%nat
  | _, _, _, _ => None
  end.

(** The body of a string literal, after its opening quote.  Control
    characters must be escaped; a [\uXXXX] escape beyond the characters of
    the model is not read. *)
Fixpoint parse_string_body (s : string) : option (string * string) :=
  match s with
  | EmptyString => None
  | String c r =>
      if Ascii.eqb c dq then Some ("", r)
      else if Ascii.eqb c "\" then
        match r with
        | String e r1 =>
            let simple (x : ascii) :=
              match parse_string_body r1 with
              | Some (t, r2) => Some (String x t, r2)
              | None => None
              end in
            if Ascii.eqb e dq then simple dq
            else if Ascii.eqb e "\" then simple "\"%char
            else if Ascii.eqb e "/" then simple "/"%char
            else if Ascii.eqb e "b" then simple (ascii_of_nat 8)
            else if Ascii.eqb e "f" then simple (ascii_of_nat 12)
            else if Ascii.eqb e "n" then simple (ascii_of_nat 10)
            else if Ascii.eqb e "r" then simple (ascii_of_nat 13)
            else if Ascii.eqb e "t" then simple (ascii_of_nat 9)
            else if Ascii.eqb e "u" then
              match r1 with
              | String h1 (String h2 (String h3 (String h4 r2))) =>
                  match hex4 h1 h2 h3 h4 with
                  | Some n =>
                      if Nat.ltb n 256 then
                        match parse_string_body r2 with
                        | Some (t, r3) => Some (String (ascii_of_nat n) t, r3)
                        | None => None
                        end
                      else None
                  | None => None
                  end
              | _ => None
              end
            else None
        | EmptyString => None
        end
      else if Nat.ltb (code c) 32 then None
      else
        match parse_string_body r with
        | Some (t, r1) => Some (String c t, r1)
        | None => None
        end
  end.

(** The rest of a literal ([null], [true], [false]) after its first letter. *)
Fixpoint strip_prefix (lit s : string) : option string :=
  match lit with
  | EmptyString => Some s
  | String c lit' =>
      match expect c s with
      | Some r => strip_prefix lit' r
      | None => None
      end
  end.

Definition expect_lit (lit : string) (v : json) (s : string) : option (json * string) :=
  match strip_prefix lit s with
  | Some r => Some (v, r)
  | None => None
  end.

(** [dict(pairs)]: a repeated key keeps its first position and takes its
    last value. *)
Definition dict_of_pairs (pairs : list (string * json)) : dict :=
  fold_left (fun acc kv => dict_set (fst kv) (snd kv) acc) pairs [].

Fixpoint parse_value (n : nat) (s : string) : option (json * string) :=
  match n with
  | O => None
  | S n' =>
      match s with
      | EmptyString => None
      | String c r =>
          if Ascii.eqb c "n" then expect_lit "ull" JNull r
          else if Ascii.eqb c "t" then expect_lit "rue" (JBool true) r
          else if Ascii.eqb c "f" then expect_lit "alse" (JBool false) r
          else if Ascii.eqb c dq then
            match parse_string_body r with
            | Some (t, r1) => Some (JStr t, r1)
            | None => None
            end
          else if Ascii.eqb c "[" then
            match expect "]" (skip_ws r) with
            | Some r1 => Some (JArr [], r1)
            | None =>
                match parse_elems n' (skip_ws r) with
                | Some (l, r2) => Some (JArr l, r2)
                | None => None
                end
            end
          else if Ascii.eqb c "{" then
            match expect "}" (skip_ws r) with
            | Some r1 => Some (JObj [], r1)
            | None =>
                match parse_members n' (skip_ws r) with
                | Some (d, r2) => Some (JObj (dict_of_pairs d), r2)
                | None => None
                end
            end
          else parse_number s
      end
  end

with parse_elems (n : nat) (s : string) : option (list json * string) :=
  match n with
  | O => None
  | S n' =>
      match parse_value n' s with
      | None => None
      | Some (v, r) =>
          match expect "]" (skip_ws r) with
          | Some r1 => Some ([v], r1)
          | None =>
              match expect "," (skip_ws r) with
              | Some r1 =>
                  match parse_elems n' (skip_ws r1) with
                  | Some (l, r2) => Some (v :: l, r2)
                  | None => None
                  end
              | None => None
              end
          end
      end
  end

with parse_members (n : nat) (s : string) : option (list (string * json) * string) :=
  match n with
  | O => None
  | S n' =>
      match s with
      | String c r =>
          if negb (Ascii.eqb c dq) then None else
          match parse_string_body r with
          | None => None
          | Some (k, r1) =>
              match expect ":" (skip_ws r1) with
              | Some r2 =>
                  match parse_value n' (skip_ws r2) with
                  | None => None
                  | Some (v, r3) =>
                      match expect "}" (skip_ws r3) with
                      | Some r4 => Some ([(k, v)], r4)
                      | None =>
                          match expect "," (skip_ws r3) with
                          | Some r4 =>
                              match parse_members n' (skip_ws r4) with
                              | Some (d, r5) => Some ((k, v) :: d, r5)
                              | None => None
                              end
                          | None => None
                          end
                      end
                  end
              | None => None
              end
          end
      | EmptyString => None
      end
  end.

(** [json.loads(s)]; [None] stands for [JSONDecodeError]. *)
Definition loads (s : string) : option json :=
  match parse_value (String.length s) (skip_ws s) with
  | Some (v, r) => match skip_ws r with EmptyString => Some v | _ => None end
  | None => None
  end.

End Json.
Export Json.

(** ** The database: models and tables

    One record per [db.Model] class, one list of rows per table.  An
    [Integer] column holds an integer, a [String]/[Text] column a string, a
    [Float] column a decimal, each optional when the column is nullable.
    SQLite does not enforce [db.ForeignKey] unless asked to (the
    application never issues [PRAGMA foreign_keys]), so a foreign-key column
    may hold an id with no row behind it. *)

Record float : Type := mkFloat { mant : Z; expo : Z }.

Definition float_to_Q (x : float) : Q :=
  if 0 <=? expo x then inject_Z (mant x * 10 ^ expo x)
  else (inject_Z (mant x) / inject_Z (10 ^ (- expo x)))%Q.

Record User : Type := mkUser {
  user_pk : Z;
  email : string;
  password_hash : string;
  user_name : string;
  phone : option string;
  user_created_at : datetime
}.

Record BirdSpecies : Type := mkBirdSpecies {
  species_pk : Z;
  name_th : string;
  name_en : option string;
  species_description : option string;
  species_characteristics : option string
}.

Record LostBird : Type := mkLostBird {
  id : Z;
  user_id : Z;
  species_id : option Z;
  name : string;
  description : string;
  characteristics : option string;      (* JSON text *)
  photos : option string;               (* JSON text *)
  last_seen_location : string;
  last_seen_lat : option float;
  last_seen_lng : option float;
  lost_date : datetime;
  contact_info : option string;         (* JSON text *)
  reward_amount : option Z;
  status : string;
  created_at : datetime;
  updated_at : datetime
}.

Record FoundBird : Type := mkFoundBird {
  found_pk : Z;
  found_user_id : Z;
  found_status : string;
  found_created_at : datetime
}.

Record SightingReport : Type := mkSightingReport {
  sighting_pk : Z;
  lost_bird_id : Z;
  reporter_id : Z;
  location : string;
  lat : option float;
  lng : option float;
  sighting_date : datetime;
  sighting_description : option string;
  sighting_photos : option string;      (* JSON text *)
  confidence_level : option Z;
  verified : bool;
  sighting_created_at : datetime
}.

Record Store : Type := mkStore {
  users : list User;
  species : list BirdSpecies;
  lost_birds : list LostBird;
  found_birds : list FoundBird;
  sightings : list SightingReport
}.

Definition empty_store : Store := mkStore [] [] [] [] [].

(** The primary key SQLite gives a new row: one more than the largest. *)
Definition next_id (ids : list Z) : Z := 1 + fold_right Z.max 0 ids.

(** *** Binding a request value to a column.  A value of a type the column
    does not hold is a bind error here; SQLite's conversions between
    storage classes are not part of the model. *)

Definition bind_int (v : json) : result (option Z) :=
  match v with
  | JNull => Ok None
  | JInt z => Ok (Some z)
  | JBool b => Ok (Some (if b then 1 else 0))
  | _ => Raise "Error binding parameter: integer expected"
  end.

Definition bind_str (v : json) : result (option string) :=
  match v with
  | JNull => Ok None
  | JStr s => Ok (Some s)
  | _ => Raise "Error binding parameter: string expected"
  end.

Definition bind_float (v : json) : result (option float) :=
  match v with
  | JNull => Ok None
  | JInt z => Ok (Some (mkFloat z 0))
  | JFloat m e => Ok (Some (mkFloat m e))
  | JBool b => Ok (Some (mkFloat (if b then 1 else 0) 0))
  | _ => Raise "Error binding parameter: float expected"
  end.

(** A column declared [nullable=False]. *)
Definition not_null {A} (col : string) (v : option A) : result A :=
  match v with
  | Some a => Ok a
  | None => Raise ("IntegrityError: NOT NULL constraint failed: " ++ col)
  end.

(** Column values on the way out, as [jsonify] writes them. *)
Definition json_of_int (v : option Z) : json :=
  match v with Some z => JInt z | None => JNull end.

Definition json_of_str (v : option string) : json :=
  match v with Some s => JStr s | None => JNull end.

Definition json_of_float (v : option float) : json :=
  match v with Some x => JFloat (mant x) (expo x) | None => JNull end.

(** ** Queries *)

Module Sql.

(** SQLite's [LIKE]: [%] matches any run of characters, [_] any one
    character, and letters of ASCII match without regard to case. *)
Definition fold_ascii (c : ascii) : ascii :=
  if is_upper_ascii c then ascii_of_nat (code c + 32) else c.

Definition ci_eqb (a b : ascii) : bool := Ascii.eqb (fold_ascii a) (fold_ascii b).

Fixpoint like (pat : string) : string -> bool :=
  match pat with
  | EmptyString => fun s => match s with EmptyString => true | _ => false end
  | String c pat' =>
      if Ascii.eqb c "%" then
        fix star (s : string) : bool :=
          (like pat' s || match s with
                          | EmptyString => false
                          | String _ s' => star s'
                          end)%bool
      else if Ascii.eqb c "_" then
        fun s => match s with
                 | EmptyString => false
                 | String _ s' => like pat' s'
                 end
      else
        fun s => match s with
                 | EmptyString => false
                 | String a s' => (ci_eqb c a && like pat' s')%bool
                 end
  end.

(** [column.contains(other)] renders as [column LIKE '%' || other || '%']. *)
Definition contains (column other : string) : bool :=
  like (String "%" (other ++ "%")) column.

(** [column.between(lo, hi)]; a NULL column satisfies no comparison. *)
Definition between (column : option float) (lo hi : Q) : bool :=
  match column with
  | None => false
  | Some x => (Qle_bool lo (float_to_Q x) && Qle_bool (float_to_Q x) hi)%bool
  end.

(** [ORDER BY key DESC]; rows with equal keys keep their table order. *)
Section Sort.
Context {A : Type} (key_of : A -> Z).

Fixpoint insert_desc (x : A) (l : list A) : list A :=
  match l with
  | [] => [x]
  | y :: r => if key_of y <=? key_of x then x :: l else y :: insert_desc x r
  end.

Definition order_by_desc (l : list A) : list A := fold_right insert_desc [] l.
End Sort.

(** Flask-SQLAlchemy's [Query.paginate(page, per_page, error_out=False)]:
    a page below 1 becomes 1 and a page size below 1 becomes 20. *)
Record Pagination (A : Type) : Type := mkPagination {
  pg_page : Z;
  pg_per_page : Z;
  items : list A;
  total : Z;
  pages : Z;
  has_next : bool;
  has_prev : bool
}.
Arguments mkPagination {A}.
Arguments pg_page {A}.
Arguments pg_per_page {A}.
Arguments items {A}.
Arguments total {A}.
Arguments pages {A}.
Arguments has_next {A}.
Arguments has_prev {A}.

Definition ceil_div (a b : Z) : Z := (a + b - 1) / b.

Definition paginate {A} (page per_page : Z) (rows : list A) : Pagination A :=
  let page := if page <? 1 then 1 else page in
  let per_page := if per_page <? 1 then 20 else per_page in
  let its := firstn (Z.to_nat per_page) (skipn (Z.to_nat ((page - 1) * per_page)) rows) in
  let tot := Z.of_nat (List.length rows) in
  let pgs := if tot =? 0 then 0 else ceil_div tot per_page in
  mkPagination page per_page its tot pgs (page <? pgs) (1 <? page).

End Sql.
Export Sql.

(** ** The handlers *)

Record Response : Type := mkResponse { body : json; status_code : Z }.

(** [jsonify({'error': msg}), code]. *)
Definition error_response (msg : string) (code : Z) : Response :=
  mkResponse (JObj [("error", JStr msg)]) code.

(** The [try: ... except Exception as e: return jsonify({'error': str(e)}), 500]
    around every handler body.  Nothing was committed when the body raised,
    so the state is the one the handler started from. *)
Definition handle {S : Type} (st : S) (r : result (Response * S)) : Response * S :=
  match r with
  | Ok x => x
  | Raise msg => (error_response msg 500, st)
  end.

(** The loop over [required_fields]: the first field whose value is falsy. *)
Fixpoint check_required (data : json) (fields : list string) : result (option string) :=
  match fields with
  | [] => Ok None
  | field :: rest =>
      v <- get data field ;;
      if truthy v then check_required data rest else Ok (Some field)
  end.

Definition as_str (v : json) : result string :=
  match v with
  | JStr s => Ok s
  | _ => Raise "object is not a str"
  end.

(** [datetime.fromisoformat(v.replace('Z', '+00:00'))]. *)
Definition parse_date (v : json) : result datetime :=
  s <- as_str v ;;
  match fromisoformat (replace_char "Z" "+00:00" s) with
  | Some d => Ok d
  | None => Raise ("Invalid isoformat string: " ++ replace_char "Z" "+00:00" s)
  end.

(** [json.loads(text) if text else default]. *)
Definition loads_or (text : option string) (default : json) : result json :=
  match text with
  | None => Ok default
  | Some t =>
      if String.eqb t "" then Ok default
      else match loads t with
           | Some v => Ok v
           | None => Raise "JSONDecodeError"
           end
  end.

Fixpoint mapM {A B} (f : A -> result B) (l : list A) : result (list B) :=
  match l with
  | [] => Ok []
  | x :: r => y <- f x ;; ys <- mapM f r ;; Ok (y :: ys)
  end.

(** An attribute of a related row that may be missing: [row.attr] on [None]
    raises [AttributeError]. *)
Definition attr {A} (what : string) (row : option A) : result A :=
  match row with
  | Some a => Ok a
  | None => Raise ("'NoneType' object has no attribute '" ++ what ++ "'")
  end.

Definition owner (st : Store) (bird : LostBird) : option User :=
  find (fun u => user_pk u =? user_id bird) (users st).

Definition species_of (st : Store) (bird : LostBird) : option BirdSpecies :=
  match species_id bird with
  | None => None
  | Some sid => find (fun s => species_pk s =? sid) (species st)
  end.

Definition reporter (st : Store) (s : SightingReport) : option User :=
  find (fun u => user_pk u =? reporter_id s) (users st).

Definition sightings_of (st : Store) (bird : LostBird) : list SightingReport :=
  filter (fun s => lost_bird_id s =? id bird) (sightings st).

Section Handlers.

(** Collaborators outside the repository: werkzeug's password hash and
    filename sanitizer, [timedelta] subtraction, and Pillow behind
    [resize_image] ([None] when the file is not an image it can open). *)
Variable generate_password_hash : string -> string.
Variable secure_filename : string -> string.
Variable minus_days : datetime -> Z -> datetime.
Variable resize : string -> option string.

(** *** POST /api/register *)
Definition register (now : datetime) (data : json) (st : Store) : Response * Store :=
  handle st (
    missing <- check_required data ["email"; "password"; "name"] ;;
    match missing with
    | Some field => Ok (error_response (field ++ " is required") 400, st)
    | None =>
        e <- getitem data "email" ;;
        e <- bind_str e ;;
        e <- not_null "user.email" e ;;
        match find (fun u => String.eqb (email u) e) (users st) with
        | Some _ => Ok (error_response "Email already registered" 400, st)
        | None =>
            pw <- getitem data "password" ;;
            pw <- as_str pw ;;
            nm <- getitem data "name" ;;
            ph <- get_default data "phone" (JStr "") ;;
            nm <- bind_str nm ;;
            nm <- not_null "user.name" nm ;;
            ph <- bind_str ph ;;
            let user := mkUser (next_id (map user_pk (users st))) e
                               (generate_password_hash pw) nm ph now in
            Ok (mkResponse (JObj [("message", JStr "User registered successfully");
                                  ("user_id", JInt (user_pk user))]) 201,
                mkStore (users st ++ [user]) (species st) (lost_birds st)
                        (found_birds st) (sightings st))
        end
    end).

(** *** POST /api/lost-birds *)
Definition create_lost_bird (now : datetime) (data : json) (st : Store)
  : Response * Store :=
  handle st (
    missing <- check_required data
                 ["user_id"; "name"; "description"; "last_seen_location"; "lost_date"] ;;
    match missing with
    | Some field => Ok (error_response (field ++ " is required") 400, st)
    | None =>
        d <- getitem data "lost_date" ;;
        lost_date <- parse_date d ;;
        uid <- getitem data "user_id" ;;
        sid <- get data "species_id" ;;
        nm <- getitem data "name" ;;
        ds <- getitem data "description" ;;
        ch <- get_default data "characteristics" (JObj []) ;;
        ph <- get_default data "photos" (JArr []) ;;
        loc <- getitem data "last_seen_location" ;;
        la <- get data "last_seen_lat" ;;
        lo <- get data "last_seen_lng" ;;
        ci <- get_default data "contact_info" (JObj []) ;;
        rw <- get_default data "reward_amount" (JInt 0) ;;
        uid <- bind_int uid ;; uid <- not_null "lost_bird.user_id" uid ;;
        sid <- bind_int sid ;;
        nm <- bind_str nm ;; nm <- not_null "lost_bird.name" nm ;;
        ds <- bind_str ds ;; ds <- not_null "lost_bird.description" ds ;;
        loc <- bind_str loc ;; loc <- not_null "lost_bird.last_seen_location" loc ;;
        la <- bind_float la ;;
        lo <- bind_float lo ;;
        rw <- bind_int rw ;;
        let lost_bird :=
          mkLostBird (next_id (map id (lost_birds st))) uid sid nm ds
                     (Some (dumps ch)) (Some (dumps ph)) loc la lo lost_date
                     (Some (dumps ci)) rw "lost" now now in
        Ok (mkResponse (JObj [("message", JStr "Lost bird report created successfully");
                              ("id", JInt (id lost_bird))]) 201,
            mkStore (users st) (species st) (lost_birds st ++ [lost_bird])
                    (found_birds st) (sightings st))
    end).

(** *** POST /api/sightings *)
Definition create_sighting (now : datetime) (data : json) (st : Store)
  : Response * Store :=
  handle st (
    missing <- check_required data
                 ["lost_bird_id"; "user_id"; "location"; "sighting_date"] ;;
    match missing with
    | Some field => Ok (error_response (field ++ " is required") 400, st)
    | None =>
        d <- getitem data "sighting_date" ;;
        sighting_date <- parse_date d ;;
        bid <- getitem data "lost_bird_id" ;;
        uid <- getitem data "user_id" ;;
        loc <- getitem data "location" ;;
        la <- get data "lat" ;;
        lo <- get data "lng" ;;
        ds <- get_default data "description" (JStr "") ;;
        ph <- get_default data "photos" (JArr []) ;;
        cl <- get_default data "confidence_level" (JInt 5) ;;
        bid <- bind_int bid ;; bid <- not_null "sighting_report.lost_bird_id" bid ;;
        uid <- bind_int uid ;; uid <- not_null "sighting_report.user_id" uid ;;
        loc <- bind_str loc ;; loc <- not_null "sighting_report.location" loc ;;
        la <- bind_float la ;;
        lo <- bind_float lo ;;
        ds <- bind_str ds ;;
        cl <- bind_int cl ;;
        let sighting :=
          mkSightingReport (next_id (map sighting_pk (sightings st))) bid uid loc
                           la lo sighting_date ds (Some (dumps ph)) cl false now in
        Ok (mkResponse (JObj [("message", JStr "Sighting report created successfully");
                              ("id", JInt (sighting_pk sighting))]) 201,
            mkStore (users st) (species st) (lost_birds st)
                    (found_birds st) (sightings st ++ [sighting]))
    end).

(** *** GET /api/lost-birds *)

(** [request.args], each value after its [type=] conversion: [None]
    when the parameter is absent or does not convert. *)
Record ListArgs : Type := mkListArgs {
  arg_page : option Z;
  arg_per_page : option Z;
  arg_status : option string;
  arg_search : option string;
  arg_lat : option Q;
  arg_lng : option Q;
  arg_radius : option Q
}.

Definition arg_or {A} (v : option A) (default : A) : A :=
  match v with Some a => a | None => default end.

(** Truthiness of an optional float: [None] and zero are falsy. *)
Definition truthy_float (v : option Q) : bool :=
  match v with
  | Some q => negb (Qeq_bool q 0)
  | None => false
  end.

(** Python's [/] on floats. *)
Definition fdiv (a b : Q) : result Q :=
  if Qeq_bool b 0 then Raise "float division by zero" else Ok (a / b)%Q.

Definition status_filter (st : string) (rows : list LostBird) : list LostBird :=
  filter (fun b => String.eqb (status b) st) rows.

Definition search_matches (search : string) (b : LostBird) : bool :=
  (contains (name b) search || contains (description b) search
   || contains (last_seen_location b) search)%bool.

Definition search_filter (search : option string) (rows : list LostBird)
  : list LostBird :=
  match search with
  | Some s => if String.eqb s "" then rows else filter (search_matches s) rows
  | None => rows
  end.

Definition in_box (la lo lat_range lng_range : Q) (b : LostBird) : bool :=
  (between (last_seen_lat b) (la - lat_range)%Q (la + lat_range)%Q
   && between (last_seen_lng b) (lo - lng_range)%Q (lo + lng_range)%Q)%bool.

Definition geo_filter (lat lng : option Q) (radius : Q) (rows : list LostBird)
  : result (list LostBird) :=
  if (truthy_float lat && truthy_float lng)%bool then
    match lat, lng with
    | Some la, Some lo =>
        lat_range <- fdiv radius 111%Q ;;
        lng_range <- fdiv radius (111 * Qabs la)%Q ;;
        Ok (filter (in_box la lo lat_range lng_range) rows)
    | _, _ => Ok rows
    end
  else Ok rows.

(** The query up to [paginate]: filters, then [ORDER BY created_at DESC]. *)
Definition lost_birds_query (args : ListArgs) (st : Store) : result (list LostBird) :=
  let rows := status_filter (arg_or (arg_status args) "lost") (lost_birds st) in
  let rows := search_filter (arg_search args) rows in
  rows <- geo_filter (arg_lat args) (arg_lng args) (arg_or (arg_radius args) 50%Q) rows ;;
  Ok (order_by_desc (fun b => key (created_at b)) rows).

Definition species_summary (sp : option BirdSpecies) : json :=
  match sp with
  | Some s => JObj [("name_th", JStr (name_th s)); ("name_en", json_of_str (name_en s))]
  | None => JNull
  end.

Definition bird_data (st : Store) (bird : LostBird) : result json :=
  ch <- loads_or (characteristics bird) (JObj []) ;;
  ph <- loads_or (photos bird) (JArr []) ;;
  ow <- attr "name" (owner st bird) ;;
  Ok (JObj [("id", JInt (id bird));
            ("name", JStr (name bird));
            ("description", JStr (description bird));
            ("characteristics", ch);
            ("photos", ph);
            ("last_seen_location", JStr (last_seen_location bird));
            ("last_seen_lat", json_of_float (last_seen_lat bird));
            ("last_seen_lng", json_of_float (last_seen_lng bird));
            ("lost_date", JStr (isoformat (lost_date bird)));
            ("reward_amount", json_of_int (reward_amount bird));
            ("status", JStr (status bird));
            ("created_at", JStr (isoformat (created_at bird)));
            ("owner", JObj [("name", JStr (user_name ow));
                            ("phone", json_of_str (phone ow))]);
            ("species", species_summary (species_of st bird))]).

Definition pagination_info (page : Z) (p : Pagination LostBird) : json :=
  JObj [("page", JInt page);
        ("pages", JInt (pages p));
        ("total", JInt (total p));
        ("has_next", JBool (has_next p));
        ("has_prev", JBool (has_prev p))].

Definition get_lost_birds (args : ListArgs) (st : Store) : Response :=
  fst (handle tt (
    let page := arg_or (arg_page args) 1 in
    let per_page := arg_or (arg_per_page args) 20 in
    rows <- lost_birds_query args st ;;
    let pagination := paginate page per_page rows in
    birds <- mapM (bird_data st) (items pagination) ;;
    Ok (mkResponse (JObj [("birds", JArr birds);
                          ("pagination", pagination_info page pagination)]) 200, tt))).

(** *** GET /api/lost-birds/<bird_id> *)

Definition sighting_data (st : Store) (s : SightingReport) : result json :=
  ph <- loads_or (sighting_photos s) (JArr []) ;;
  rp <- attr "name" (reporter st s) ;;
  Ok (JObj [("id", JInt (sighting_pk s));
            ("location", JStr (location s));
            ("lat", json_of_float (lat s));
            ("lng", json_of_float (lng s));
            ("sighting_date", JStr (isoformat (sighting_date s)));
            ("description", json_of_str (sighting_description s));
            ("photos", ph);
            ("confidence_level", json_of_int (confidence_level s));
            ("verified", JBool (verified s));
            ("reporter", JStr (user_name rp))]).

Definition species_detail (sp : option BirdSpecies) : json :=
  match sp with
  | Some s => JObj [("id", JInt (species_pk s));
                    ("name_th", JStr (name_th s));
                    ("name_en", json_of_str (name_en s));
                    ("description", json_of_str (species_description s))]
  | None => JNull
  end.

(** [LostBird.query.get_or_404(bird_id)]: the [NotFound] it raises is an
    [Exception] and is caught by the handler's [except] clause. *)
Definition get_or_404 (bird_id : Z) (st : Store) : result LostBird :=
  match find (fun b => id b =? bird_id) (lost_birds st) with
  | Some b => Ok b
  | None => Raise "404 Not Found"
  end.

Definition get_lost_bird (bird_id : Z) (st : Store) : Response :=
  fst (handle tt (
    bird <- get_or_404 bird_id st ;;
    ch <- loads_or (characteristics bird) (JObj []) ;;
    ph <- loads_or (photos bird) (JArr []) ;;
    ci <- loads_or (contact_info bird) (JObj []) ;;
    ow <- attr "id" (owner st bird) ;;
    ss <- mapM (sighting_data st) (sightings_of st bird) ;;
    Ok (mkResponse
          (JObj [("id", JInt (id bird));
                 ("name", JStr (name bird));
                 ("description", JStr (description bird));
                 ("characteristics", ch);
                 ("photos", ph);
                 ("last_seen_location", JStr (last_seen_location bird));
                 ("last_seen_lat", json_of_float (last_seen_lat bird));
                 ("last_seen_lng", json_of_float (last_seen_lng bird));
                 ("lost_date", JStr (isoformat (lost_date bird)));
                 ("contact_info", ci);
                 ("reward_amount", json_of_int (reward_amount bird));
                 ("status", JStr (status bird));
                 ("created_at", JStr (isoformat (created_at bird)));
                 ("owner", JObj [("id", JInt (user_pk ow));
                                 ("name", JStr (user_name ow));
                                 ("email", JStr (email ow));
                                 ("phone", json_of_str (phone ow))]);
                 ("species", species_detail (species_of st bird));
                 ("sightings", JArr ss)]) 200, tt))).

(** *** GET /api/stats *)

(** [round(x)] to the nearest integer, ties to even. *)
Definition round_half_even (x : Q) : Z :=
  let f := Qfloor x in
  match ((x - inject_Z f) ?= (1 # 2))%Q with
  | Lt => f
  | Gt => f + 1
  | Eq => if Z.even f then f else f + 1
  end.

(** [round(x, 2)]. *)
Definition round2 (x : Q) : float := mkFloat (round_half_even (x * 100)%Q) (-2).

Definition count {A} (l : list A) : Z := Z.of_nat (List.length l).

Definition success_rate (total_reunited total_lost : Z) : result float :=
  q <- fdiv (inject_Z total_reunited) (inject_Z (Z.max total_lost 1)) ;;
  Ok (round2 (q * 100)%Q).

Definition get_statistics (now : datetime) (st : Store) : Response :=
  fst (handle tt (
    let total_lost := count (lost_birds st) in
    let total_found := count (found_birds st) in
    let total_reunited := count (status_filter "reunited" (lost_birds st)) in
    let total_sightings := count (sightings st) in
    let recent_lost :=
      count (filter (fun b => key (minus_days now 30) <=? key (created_at b))
                    (lost_birds st)) in
    let recent_found :=
      count (filter (fun b => key (minus_days now 30) <=? key (found_created_at b))
                    (found_birds st)) in
    rate <- success_rate total_reunited total_lost ;;
    Ok (mkResponse (JObj [("total_lost", JInt total_lost);
                          ("total_found", JInt total_found);
                          ("total_reunited", JInt total_reunited);
                          ("total_sightings", JInt total_sightings);
                          ("recent_lost", JInt recent_lost);
                          ("recent_found", JInt recent_found);
                          ("success_rate", JFloat (mant rate) (expo rate))]) 200, tt))).

(** *** Uploads *)

Record FileStorage : Type := mkFileStorage { filename : string; content : string }.

(** The upload folder: stored name and content of each file. *)
Definition Disk := list (string * string).

Definition UPLOAD_FOLDER : string := "uploads".

Definition path_join (dir file : string) : string := dir ++ "/" ++ file.

Definition write_file (path data : string) (disk : Disk) : Disk :=
  (path, data) :: filter (fun e => negb (String.eqb (fst e) path)) disk.

Definition read_file (path : string) (disk : Disk) : option string :=
  match find (fun e => String.eqb (fst e) path) disk with
  | Some e => Some (snd e)
  | None => None
  end.

Definition ALLOWED_EXTENSIONS : list string := ["png"; "jpg"; "jpeg"; "gif"].

Definition allowed_file (filename : string) : bool :=
  (contains_char "." filename &&
   match rsplit1 "." filename with
   | Some (_, ext) => mem_string (lower ext) ALLOWED_EXTENSIONS
   | None => false
   end)%bool.

(** [uuid] is the text of the [uuid.uuid4()] drawn for this call. *)
Definition save_uploaded_file (uuid : string) (file : FileStorage) (disk : Disk)
  : option string * Disk :=
  if (negb (String.eqb (filename file) "") && allowed_file (filename file))%bool then
    let fname := secure_filename (filename file) in
    let unique_filename := uuid ++ "_" ++ fname in
    let filepath := path_join UPLOAD_FOLDER unique_filename in
    (Some unique_filename, write_file filepath (content file) disk)
  else (None, disk).

Definition resize_image (filepath : string) (disk : Disk) : result Disk :=
  match read_file filepath disk with
  | None => Raise "FileNotFoundError"
  | Some data =>
      match resize data with
      | Some data' => Ok (write_file filepath data' disk)
      | None => Raise "cannot identify image file"
      end
  end.

(** [files] is [request.files.get('file')].  A file written before an
    exception stays on disk: the [except] clause only builds the reply. *)
Definition upload_file (uuid : string) (files : option FileStorage) (disk : Disk)
  : Response * Disk :=
  match files with
  | None => (error_response "No file provided" 400, disk)
  | Some file =>
      if String.eqb (filename file) "" then (error_response "No file selected" 400, disk)
      else
        match save_uploaded_file uuid file disk with
        | (Some fname, disk1) =>
            match resize_image (path_join UPLOAD_FOLDER fname) disk1 with
            | Ok disk2 =>
                (mkResponse (JObj [("message", JStr "File uploaded successfully");
                                   ("filename", JStr fname);
                                   ("url", JStr ("/api/uploads/" ++ fname))]) 200, disk2)
            | Raise msg => (error_response msg 500, disk1)
            end
        | (None, disk1) => (error_response "Invalid file type" 400, disk1)
        end
  end.

End Handlers.

(** * Properties *)

(** ** Sanity checks of the model on concrete inputs *)

Example fromisoformat_utc :
  fromisoformat (replace_char "Z" "+00:00" "2024-05-01T10:30:00Z")
  = Some (mkDatetime 2024 5 1 10 30 0 0 (Some 0)).
Proof. reflexivity. Qed.

Example fromisoformat_bad : fromisoformat "not-a-date" = None.
Proof. reflexivity. Qed.

Example isoformat_example :
  isoformat (mkDatetime 2024 5 1 10 30 0 0 (Some 0)) = "2024-05-01T10:30:00+00:00".
Proof. reflexivity. Qed.

Example dumps_example :
  dumps (JObj [("color", JStr "green"); ("tags", JArr [JInt 1; JInt (-20); JBool true; JNull])])
  = "{" ++ dumps_string "color" ++ ": " ++ dumps_string "green" ++ ", "
        ++ dumps_string "tags" ++ ": [1, -20, true, null]}".
Proof. reflexivity. Qed.

Example loads_example :
  loads ("{" ++ dumps_string "color" ++ ": " ++ dumps_string "green" ++ " , "
        ++ dumps_string "tags" ++ ": [1, -20.5e1 , true, null], "
        ++ dumps_string "color" ++ ":3}")
  = Some (JObj [("color", JInt 3);
                ("tags", JArr [JInt 1; JFloat (-205) 0; JBool true; JNull])]).
Proof. vm_compute. reflexivity. Qed.

Example like_wildcard : contains "Kiwi" "_" = true /\ contains "Kiwi" "KI" = true
                        /\ contains "Kiwi" "x" = false.
Proof. repeat split. Qed.

(** ** Strings *)

Lemma sapp_assoc (s t u : string) : (s ++ t) ++ u = s ++ (t ++ u).
Proof. induction s as [|c s IH]; simpl; [reflexivity | now rewrite IH]. Qed.

Lemma sapp_nil_r (s : string) : s ++ "" = s.
Proof. induction s as [|c s IH]; simpl; [reflexivity | now rewrite IH]. Qed.

Lemma slength_app (s t : string) :
  String.length (s ++ t) = (String.length s + String.length t)%nat.
Proof. induction s as [|c s IH]; simpl; [reflexivity | now rewrite IH]. Qed.

(** ** Reading request bodies *)


Lemma getitem_obj (d : dict) (k : string) (v : json) :
  dict_lookup k d = Some v -> getitem (JObj d) k = Ok v.
Proof. intros H; unfold getitem; now rewrite H. Qed.





(** The loop stops at the first falsy field and never raises on an object. *)
Lemma check_required_obj (d : dict) (fields : list string) :
  exists r, check_required (JObj d) fields = Ok r.
Proof.
  induction fields as [|f fs IH]; simpl; [now exists None|].
  destruct (truthy (lookup_or d f JNull)); [exact IH | now exists (Some f)].
Qed.

(** ** C1: sightings and the lost bird they name *)


Section CreateSighting.
Variables (now : datetime) (d : dict) (st : Store).
Variables (bid uid : Z) (loc when : string) (dt : datetime).
Variables (la lo : option float) (ds : option string) (cl : option Z).

Hypothesis Hbid : dict_lookup "lost_bird_id" d = Some (JInt bid).
Hypothesis Hbid0 : bid <> 0.
Hypothesis Huid : dict_lookup "user_id" d = Some (JInt uid).
Hypothesis Huid0 : uid <> 0.
Hypothesis Hloc : dict_lookup "location" d = Some (JStr loc).
Hypothesis Hloc0 : loc <> "".
Hypothesis Hwhen : dict_lookup "sighting_date" d = Some (JStr when).
Hypothesis Hdt : fromisoformat (replace_char "Z" "+00:00" when) = Some dt.
Hypothesis Hla : bind_float (lookup_or d "lat" JNull) = Ok la.
Hypothesis Hlo : bind_float (lookup_or d "lng" JNull) = Ok lo.
Hypothesis Hds : bind_str (lookup_or d "description" (JStr "")) = Ok ds.
Hypothesis Hcl : bind_int (lookup_or d "confidence_level" (JInt 5)) = Ok cl.

Let row : SightingReport :=
  mkSightingReport (next_id (map sighting_pk (sightings st))) bid uid loc la lo dt ds
                   (Some (dumps (lookup_or d "photos" (JArr [])))) cl false now.

End CreateSighting.

Definition sample_now : datetime := mkDatetime 2024 5 1 12 0 0 0 None.





(** ** Creating a lost-bird listing *)

Definition lost_bird_required : list string :=
  ["user_id"; "name"; "description"; "last_seen_location"; "lost_date"].

Section CreateLostBird.
Variables (now : datetime) (d : dict) (st : Store).
Variables (uid : Z) (nm ds loc when : string) (dt : datetime).
Variables (sid rw : option Z) (la lo : option float).

Hypothesis Huid : dict_lookup "user_id" d = Some (JInt uid).
Hypothesis Huid0 : uid <> 0.
Hypothesis Hnm : dict_lookup "name" d = Some (JStr nm).
Hypothesis Hnm0 : nm <> "".
Hypothesis Hds : dict_lookup "description" d = Some (JStr ds).
Hypothesis Hds0 : ds <> "".
Hypothesis Hloc : dict_lookup "last_seen_location" d = Some (JStr loc).
Hypothesis Hloc0 : loc <> "".
Hypothesis Hwhen : dict_lookup "lost_date" d = Some (JStr when).
Hypothesis Hdt : fromisoformat (replace_char "Z" "+00:00" when) = Some dt.
Hypothesis Hsid : bind_int (lookup_or d "species_id" JNull) = Ok sid.
Hypothesis Hla : bind_float (lookup_or d "last_seen_lat" JNull) = Ok la.
Hypothesis Hlo : bind_float (lookup_or d "last_seen_lng" JNull) = Ok lo.
Hypothesis Hrw : bind_int (lookup_or d "reward_amount" (JInt 0)) = Ok rw.



End CreateLostBird.

(** ** C6: the lost_date of a new listing *)









(** ** C7: registering an e-mail address twice *)

Definition registered (st : Store) (e : string) : Prop :=
  exists u, In u (users st) /\ email u = e.

Lemma find_registered (st : Store) (e : string) :
  registered st e ->
  exists u, find (fun u => String.eqb (email u) e) (users st) = Some u.
Proof.
  intros [u [Hin He]]. induction (users st) as [|x l IH]; [destruct Hin|].
  simpl. destruct (String.eqb (email x) e) eqn:Hx; [now exists x|].
  destruct Hin as [->|Hin]; [|now apply IH].
  apply String.eqb_neq in Hx. contradiction.
Qed.

Definition register_required : list string := ["email"; "password"; "name"].

Definition sample_user : User :=
  mkUser 1 "ann@example.com" "hash" "Ann" (Some "0812345678") sample_now.

Definition sample_store : Store := mkStore [sample_user] [] [] [] [].

(** C7, as stated, fails: with a registered e-mail address and an empty
    password the reply is the missing-field error, not the duplicate-email
    one. *)
Lemma C7_counterexample :
  registered sample_store "ann@example.com" /\
  register (fun pw => pw) sample_now
           (JObj [("email", JStr "ann@example.com"); ("password", JStr "");
                  ("name", JStr "Ann")]) sample_store
  = (error_response "password is required" 400, sample_store).
Proof.
  split; [|reflexivity].
  exists sample_user. split; [now left | reflexivity].
Qed.

(** C7 (amended): a registration request whose e-mail address is already
    registered is answered with status 400 whatever its other fields are,
    and the store, the existing user's row included, is left as it was.
    The reply is the duplicate-email error when e-mail, password and name
    are all present and truthy; otherwise it is the missing-field error of
    the first required field that is absent or falsy. *)
Theorem C7_register_duplicate_email
  (generate_password_hash : string -> string) (now : datetime)
  (d : dict) (st : Store) (e : string) :
  dict_lookup "email" d = Some (JStr e) ->
  registered st e ->
  let (resp, st') := register generate_password_hash now (JObj d) st in
  st' = st /\ status_code resp = 400 /\
  (check_required (JObj d) register_required = Ok None ->
   resp = error_response "Email already registered" 400) /\
  (forall field, check_required (JObj d) register_required = Ok (Some field) ->
   resp = error_response (field ++ " is required") 400).
Proof.
  intros He Hreg.
  unfold register. fold register_required.
  destruct (check_required_obj d register_required) as [[field|] Hreq]; rewrite Hreq;
    cbn [bind handle].
  - split; [reflexivity|]. split; [reflexivity|]. split.
    + discriminate.
    + now intros f [= ->].
  - rewrite (getitem_obj _ _ _ He). cbn [bind bind_str not_null].
    destruct (find_registered st e Hreg) as [u ->]. cbn [handle].
    split; [reflexivity|]. split; [reflexivity|]. split.
    + reflexivity.
    + discriminate.
Qed.

Lemma C7_witness :
  let (resp, st') :=
    register (fun pw => pw) sample_now
             (JObj [("email", JStr "ann@example.com"); ("password", JStr "s3cret");
                    ("name", JStr "Someone Else"); ("phone", JInt 7)]) sample_store in
  st' = sample_store /\ status_code resp = 400 /\
  (check_required (JObj [("email", JStr "ann@example.com"); ("password", JStr "s3cret");
                         ("name", JStr "Someone Else"); ("phone", JInt 7)])
                  register_required = Ok None ->
   resp = error_response "Email already registered" 400) /\
  (forall field,
      check_required (JObj [("email", JStr "ann@example.com"); ("password", JStr "s3cret");
                            ("name", JStr "Someone Else"); ("phone", JInt 7)])
                     register_required = Ok (Some field) ->
      resp = error_response (field ++ " is required") 400).
Proof.
  apply (C7_register_duplicate_email (fun pw => pw) sample_now
           [("email", JStr "ann@example.com"); ("password", JStr "s3cret");
            ("name", JStr "Someone Else"); ("phone", JInt 7)] sample_store "ann@example.com").
  - reflexivity.
  - exists sample_user. split; [now left | reflexivity].
Defined.

(** ** C9: uploads *)

Lemma rsplit1_none (c : ascii) (s : string) :
  rsplit1 c s = None <-> contains_char c s = false.
Proof.
  induction s as [|a s IH]; simpl; [tauto|].
  destruct (rsplit1 c s) as [[h t]|].
  - split; [discriminate|]. intros H. apply Bool.orb_false_iff in H as [_ H].
    apply IH in H. discriminate.
  - destruct (Ascii.eqb a c); simpl; [split; discriminate|].
    split; intros _; [now apply IH | reflexivity].
Qed.

(** [rsplit1] cuts at the last occurrence of the separator. *)
Lemma rsplit1_some (c : ascii) (s h t : string) :
  rsplit1 c s = Some (h, t) <-> s = h ++ String c t /\ contains_char c t = false.
Proof.
  revert h. induction s as [|a s IH]; intros h; simpl.
  - split; [discriminate|]. intros [H _]. destruct h; discriminate.
  - destruct (rsplit1 c s) as [[h' t']|] eqn:Hr.
    + split.
      * intros [= <- <-]. destruct (proj1 (IH h') eq_refl) as [-> Ht]. now split.
      * intros [Hs Ht]. destruct h as [|b h]; simpl in Hs.
        -- injection Hs as -> ->.
           assert (Hn : rsplit1 c t = None) by now apply rsplit1_none.
           congruence.
        -- injection Hs as -> ->.
           assert (Hx : Some (h', t') = Some (h, t)) by (apply IH; now split).
           now injection Hx as -> ->.
    + apply rsplit1_none in Hr. destruct (Ascii.eqb a c) eqn:Hac.
      * apply Ascii.eqb_eq in Hac as ->. split.
        -- intros [= <- <-]. now split.
        -- intros [Hs Ht]. destruct h as [|b h]; simpl in Hs.
           ++ now injection Hs as ->.
           ++ injection Hs as -> ->. exfalso.
              clear -Hr. induction h as [|x h IH]; simpl in Hr.
              ** now rewrite Ascii.eqb_refl in Hr.
              ** apply Bool.orb_false_iff in Hr as [_ Hr]. now apply IH.
      * split; [discriminate|]. intros [Hs Ht]. exfalso.
        destruct h as [|b h]; simpl in Hs.
        -- injection Hs as -> _. now rewrite Ascii.eqb_refl in Hac.
        -- injection Hs as -> ->. clear -Hr.
           induction h as [|x h IH]; simpl in Hr.
           ++ now rewrite Ascii.eqb_refl in Hr.
           ++ apply Bool.orb_false_iff in Hr as [_ Hr]. now apply IH.
Qed.

Lemma mem_string_In (s : string) (l : list string) : mem_string s l = true <-> In s l.
Proof.
  unfold mem_string. rewrite existsb_exists. split.
  - intros [x [Hin Hx]]. apply String.eqb_eq in Hx. now subst.
  - intros H. exists s. split; [assumption | apply String.eqb_refl].
Qed.

(** The file name ends in a final extension, the text after its last dot,
    that is one of the allowed ones once put in lower case. *)
Definition has_allowed_extension (fname : string) : Prop :=
  exists stem ext,
    fname = stem ++ String "." ext /\ contains_char "." ext = false /\
    In (lower ext) ALLOWED_EXTENSIONS.

Lemma allowed_file_spec (fname : string) :
  allowed_file fname = true <-> has_allowed_extension fname.
Proof.
  unfold allowed_file, has_allowed_extension. split.
  - intros H. apply Bool.andb_true_iff in H as [_ H].
    destruct (rsplit1 "." fname) as [[h t]|] eqn:Hr; [|discriminate].
    apply rsplit1_some in Hr as [-> Ht]. exists h, t.
    split; [reflexivity|]. split; [assumption|]. now apply mem_string_In.
  - intros [stem [ext [-> [Hext Hin]]]].
    assert (Hr : rsplit1 "." (stem ++ String "." ext) = Some (stem, ext))
      by (apply rsplit1_some; now split).
    rewrite Hr. apply Bool.andb_true_iff. split; [|now apply mem_string_In].
    destruct (contains_char "." (stem ++ String "." ext)) eqn:Hc; [reflexivity|].
    apply rsplit1_none in Hc. congruence.
Qed.

Lemma read_write_file (path data : string) (disk : Disk) :
  read_file path (write_file path data disk) = Some data.
Proof. unfold read_file, write_file. simpl. now rewrite String.eqb_refl. Qed.

Example allowed_file_examples :
  allowed_file "virus.exe" = false /\ allowed_file "photo.PNG" = true /\
  allowed_file "archive.png.zip" = false /\ allowed_file "png" = false.
Proof. repeat split. Qed.


(** ** Ordering by creation time *)

Section OrderBy.
Context {A : Type} (key_of : A -> Z).


Lemma insert_desc_perm (x : A) (l : list A) :
  Permutation (insert_desc key_of x l) (x :: l).
Proof.
  induction l as [|y l IH]; simpl; [reflexivity|].
  destruct (key_of y <=? key_of x); [reflexivity|].
  rewrite IH. apply perm_swap.
Qed.

Lemma order_by_desc_perm (l : list A) : Permutation (order_by_desc key_of l) l.
Proof.
  induction l as [|x l IH]; simpl; [reflexivity|].
  rewrite insert_desc_perm. now constructor.
Qed.





Lemma order_by_desc_length (l : list A) :
  List.length (order_by_desc key_of l) = List.length l.
Proof. apply Permutation_length, order_by_desc_perm. Qed.

End OrderBy.

(** ** C3 and C4: the bounding box *)

Definition absent_or_zero (v : option Q) : Prop :=
  match v with
  | None => True
  | Some q => (q == 0)%Q
  end.

Lemma absent_or_zero_falsy (v : option Q) : absent_or_zero v -> truthy_float v = false.
Proof.
  destruct v as [q|]; simpl; [|reflexivity].
  intros H. apply Qeq_bool_iff in H. now rewrite H.
Qed.


Lemma fdiv_ok (a b : Q) : ~ (b == 0)%Q -> fdiv a b = Ok (a / b)%Q.
Proof.
  intros H. unfold fdiv. destruct (Qeq_bool b 0) eqn:E; [|reflexivity].
  apply Qeq_bool_iff in E. contradiction.
Qed.

Lemma scaled_abs_nonzero (q : Q) : ~ (q == 0)%Q -> ~ (111 * Qabs q == 0)%Q.
Proof.
  intros Hq H. apply Qmult_integral in H as [H|H]; [discriminate H|].
  apply Hq. revert H.
  apply (Qabs_case q (fun a => (a == 0)%Q -> (q == 0)%Q)); intros _ E; [exact E|].
  rewrite <- (Qopp_involutive q), E. reflexivity.
Qed.

(** The filter never raises: the divisor [111 * abs(lat)] is only formed
    for a latitude that is truthy, that is, not zero. *)
Lemma geo_filter_total (lat lng : option Q) (radius : Q) (rows : list LostBird) :
  exists kept, geo_filter lat lng radius rows = Ok kept.
Proof.
  unfold geo_filter.
  destruct (truthy_float lat && truthy_float lng)%bool eqn:E; [|now eexists].
  apply Bool.andb_true_iff in E as [Hlat Hlng].
  destruct lat as [la|]; [|discriminate]. destruct lng as [lo|]; [|discriminate].
  assert (Hla : ~ (la == 0)%Q).
  { intros H. simpl in Hlat. apply Qeq_bool_iff in H. rewrite H in Hlat. discriminate. }
  rewrite fdiv_ok by discriminate. cbn [bind].
  rewrite fdiv_ok by now apply scaled_abs_nonzero.
  now eexists.
Qed.

Lemma geo_filter_skipped (lat lng : option Q) (radius : Q) (rows : list LostBird) :
  absent_or_zero lat \/ absent_or_zero lng -> geo_filter lat lng radius rows = Ok rows.
Proof.
  intros H. unfold geo_filter.
  destruct H as [H|H]; apply absent_or_zero_falsy in H; rewrite H;
    [|rewrite Bool.andb_false_r]; reflexivity.
Qed.


(** The same query with no [lat] and no [lng]. *)
Definition without_geo (args : ListArgs) : ListArgs :=
  mkListArgs (arg_page args) (arg_per_page args) (arg_status args) (arg_search args)
             None None (arg_radius args).

(** C4: when [lat] or [lng] is absent or zero the geographic filter is not
    applied: the reply is the reply to the same query without [lat] and
    [lng]; and no query makes the filter divide by zero. *)
Theorem C4_geo_filter_guard (args : ListArgs) (st : Store) :
  absent_or_zero (arg_lat args) \/ absent_or_zero (arg_lng args) ->
  get_lost_birds args st = get_lost_birds (without_geo args) st /\
  (forall rows, geo_filter (arg_lat args) (arg_lng args) (arg_or (arg_radius args) 50%Q) rows
                = Ok rows) /\
  (forall lat lng radius rows,
      geo_filter lat lng radius rows <> Raise "float division by zero").
Proof.
  intros H. split; [|split].
  - unfold get_lost_birds, lost_birds_query. simpl.
    now rewrite (geo_filter_skipped _ _ _ _ H).
  - intros rows. now apply geo_filter_skipped.
  - intros lat lng radius rows.
    destruct (geo_filter_total lat lng radius rows) as [kept ->]. discriminate.
Qed.

Definition sample_bird (pk : Z) (la lo : Z) (created : datetime) : LostBird :=
  mkLostBird pk 1 None "Kiwi" "green parakeet" (Some "{}") (Some "[]") "Chatuchak"
             (Some (mkFloat la 0)) (Some (mkFloat lo 0))
             sample_now (Some "{}") (Some 0) "lost" created created.

Definition zero_lat_args : ListArgs :=
  mkListArgs None None None None (Some 0%Q) (Some (100 # 1)%Q) None.

Lemma C4_witness :
  get_lost_birds zero_lat_args sample_store = get_lost_birds (without_geo zero_lat_args) sample_store /\
  (forall rows,
      geo_filter (arg_lat zero_lat_args) (arg_lng zero_lat_args)
                 (arg_or (arg_radius zero_lat_args) 50%Q) rows = Ok rows) /\
  (forall lat lng radius rows,
      geo_filter lat lng radius rows <> Raise "float division by zero").
Proof.
  apply (C4_geo_filter_guard zero_lat_args sample_store).
  left. simpl. reflexivity.
Defined.









Definition far_store : Store :=
  mkStore [sample_user] [] [sample_bird 1 80 100 sample_now] [] [].





(** ** C10: the success rate *)



Lemma success_rate_value (reunited total : Z) :
  success_rate reunited total
  = Ok (round2 (inject_Z reunited / inject_Z (Z.max total 1) * 100)%Q).
Proof.
  unfold success_rate. rewrite fdiv_ok; [reflexivity|].
  intros H. unfold Qeq in H. simpl in H. lia.
Qed.


(** ** C8: the text search *)

(** Equality of two texts up to the case of ASCII letters. *)
Fixpoint ci_equal (p s : string) : bool :=
  match p, s with
  | EmptyString, EmptyString => true
  | String c p', String a s' => (ci_eqb c a && ci_equal p' s')%bool
  | _, _ => false
  end.

(** [needle] occurs in [hay] up to the case of ASCII letters. *)
Definition ci_substring (needle hay : string) : Prop :=
  exists pre mid post, hay = pre ++ mid ++ post /\ ci_equal needle mid = true.

(** The same, as a test: at some position of [hay]. *)
Fixpoint ci_prefix (p s : string) : bool :=
  match p, s with
  | EmptyString, _ => true
  | String c p', String a s' => (ci_eqb c a && ci_prefix p' s')%bool
  | String _ _, EmptyString => false
  end.

Fixpoint ci_substringb (needle hay : string) : bool :=
  (ci_prefix needle hay ||
   match hay with
   | EmptyString => false
   | String _ hay' => ci_substringb needle hay'
   end)%bool.











Lemma ci_prefix_iff (p s : string) :
  ci_prefix p s = true <-> exists mid post, s = mid ++ post /\ ci_equal p mid = true.
Proof.
  revert s. induction p as [|c p IH]; intros s.
  - simpl. split; [intros _; now exists "", s | reflexivity].
  - destruct s as [|a s]; simpl.
    + split; [discriminate|]. intros [mid [post [Hs H]]].
      destruct mid; [discriminate H | discriminate Hs].
    + rewrite Bool.andb_true_iff, IH. split.
      * intros [Hca [mid [post [-> H]]]]. exists (String a mid), post.
        split; [reflexivity|]. simpl. now rewrite Hca.
      * intros [mid [post [Hs H]]]. destruct mid as [|b mid]; [discriminate H|].
        simpl in Hs. injection Hs as -> ->. simpl in H.
        apply Bool.andb_true_iff in H as [Hca H]. split; [assumption|].
        now exists mid, post.
Qed.

(** The test [ci_substringb] decides [ci_substring]. *)
Lemma ci_substringb_iff (needle hay : string) :
  ci_substringb needle hay = true <-> ci_substring needle hay.
Proof.
  unfold ci_substring. induction hay as [|a hay IH].
  - simpl. rewrite Bool.orb_false_r, ci_prefix_iff. split.
    + intros [mid [post [Hs H]]]. now exists "", mid, post.
    + intros [pre [mid [post [Hs H]]]]. destruct pre; [|discriminate].
      now exists mid, post.
  - change (ci_substringb needle (String a hay))
      with (ci_prefix needle (String a hay) || ci_substringb needle hay)%bool.
    rewrite Bool.orb_true_iff, IH, ci_prefix_iff. split.
    + intros [[mid [post [Hs H]]] | [pre [mid [post [-> H]]]]].
      * now exists "", mid, post.
      * now exists (String a pre), mid, post.
    + intros [pre [mid [post [Hs H]]]]. destruct pre as [|b pre]; simpl in Hs.
      * left. now exists mid, post.
      * right. injection Hs as -> ->. now exists pre, mid, post.
Qed.

(** ** C2: pages *)
















(** The same query for another page. *)
Definition with_page (args : ListArgs) (page : Z) : ListArgs :=
  mkListArgs (Some page) (arg_per_page args) (arg_status args) (arg_search args)
             (arg_lat args) (arg_lng args) (arg_radius args).


Definition orphan_store : Store :=
  mkStore [] [] [sample_bird 1 80 100 sample_now] [] [].

Definition no_args : ListArgs := mkListArgs None None None None None None None.




(** ** The JSON text round trip *)

(** *** Numbers *)

Lemma digit_digit_char (d : Z) : 0 <= d < 10 -> digit (digit_char d) = Some d.
Proof.
  intros H.
  assert (E : d = 0 \/ d = 1 \/ d = 2 \/ d = 3 \/ d = 4 \/ d = 5 \/ d = 6 \/ d = 7
              \/ d = 8 \/ d = 9) by lia.
  repeat (destruct E as [->|E]; [reflexivity|]). subst. reflexivity.
Qed.

Lemma read_digits_show_aux (f : nat) :
  forall n, 0 <= n < 10 ^ Z.of_nat f ->
  forall acc cnt rest,
    read_digits acc cnt (show_nat_aux f n ++ rest)
    = read_digits (acc * 10 ^ Z.of_nat (String.length (show_nat_aux f n)) + n)
                  (cnt + String.length (show_nat_aux f n)) rest.
Proof.
  induction f as [|f IH]; intros n Hn acc cnt rest.
  - simpl. change (10 ^ Z.of_nat 0) with 1 in Hn.
    replace (acc * 1 + n) with acc by lia. now rewrite Nat.add_0_r.
  - simpl show_nat_aux. destruct (n <? 10) eqn:E.
    + apply Z.ltb_lt in E. cbn [append read_digits String.length].
      rewrite digit_digit_char by lia.
      change (10 ^ Z.of_nat 1) with 10.
      f_equal; [lia | lia].
    + apply Z.ltb_ge in E. rewrite sapp_assoc.
      assert (Hq : 0 <= n / 10 < 10 ^ Z.of_nat f).
      { split; [apply Z.div_pos; lia|].
        apply Z.div_lt_upper_bound; [lia|].
        rewrite Nat2Z.inj_succ, Z.pow_succ_r in Hn by lia. lia. }
      rewrite (IH _ Hq). cbn [append read_digits].
      rewrite digit_digit_char by (apply Z.mod_pos_bound; lia).
      rewrite slength_app. cbn [String.length].
      f_equal.
      * rewrite Nat2Z.inj_add. change (Z.of_nat 1) with 1.
        rewrite Z.pow_add_r by lia. change (10 ^ 1) with 10.
        pose proof (Z.div_mod n 10 ltac:(lia)). lia.
      * lia.
Qed.

Lemma show_nat_aux_head (f : nat) :
  forall n, 0 < n < 10 ^ Z.of_nat f ->
  exists c s d, show_nat_aux f n = String c s /\ digit c = Some d /\ d <> 0.
Proof.
  induction f as [|f IH]; intros n Hn.
  - change (10 ^ Z.of_nat 0) with 1 in Hn. lia.
  - cbn [show_nat_aux]. destruct (n <? 10) eqn:E.
    + apply Z.ltb_lt in E. exists (digit_char n), "", n.
      split; [reflexivity|]. split; [apply digit_digit_char; lia | lia].
    + apply Z.ltb_ge in E.
      assert (Hq : 0 < n / 10 < 10 ^ Z.of_nat f).
      { split; [apply Z.div_str_pos; lia|].
        apply Z.div_lt_upper_bound; [lia|].
        rewrite Nat2Z.inj_succ, Z.pow_succ_r in Hn by lia. lia. }
      destruct (IH _ Hq) as [c [s [d [-> [Hc Hd]]]]].
      now exists c, (s ++ String (digit_char (n mod 10)) ""), d.
Qed.

Lemma show_nat_fuel (n : Z) : 0 <= n -> n < 10 ^ Z.of_nat (S (Z.to_nat (Z.log2 n))).
Proof.
  intros Hn. rewrite Nat2Z.inj_succ, Z2Nat.id by apply Z.log2_nonneg.
  destruct (Z.eq_dec n 0) as [->|Hz]; [reflexivity|].
  pose proof (Z.log2_spec n ltac:(lia)) as [_ H2].
  eapply Z.lt_le_trans; [exact H2|].
  apply Z.pow_le_mono_l. lia.
Qed.

(** A text that does not go on with a digit. *)
Definition no_digit_head (rest : string) : Prop :=
  match rest with
  | EmptyString => True
  | String c _ => digit c = None
  end.

Lemma read_digits_stop (acc : Z) (cnt : nat) (rest : string) :
  no_digit_head rest -> read_digits acc cnt rest = (acc, cnt, rest).
Proof. destruct rest as [|c r]; simpl; [reflexivity | now intros ->]. Qed.

Lemma read_digits_show_nat (n : Z) (rest : string) :
  0 <= n -> no_digit_head rest ->
  read_digits 0 0 (show_nat n ++ rest) = (n, String.length (show_nat n), rest).
Proof.
  intros Hn Hrest. unfold show_nat.
  rewrite read_digits_show_aux by (split; [assumption | now apply show_nat_fuel]).
  rewrite read_digits_stop by assumption. reflexivity.
Qed.

Lemma show_nat_head (n : Z) :
  0 <= n -> exists c s d, show_nat n = String c s /\ digit c = Some d
                          /\ (d = 0 -> n = 0 /\ s = "").
Proof.
  intros Hn. destruct (Z.eq_dec n 0) as [->|Hz].
  - exists "0"%char, "", 0. repeat split.
  - destruct (show_nat_aux_head (S (Z.to_nat (Z.log2 n))) n) as [c [s [d [E [Hc Hd]]]]].
    { split; [lia | now apply show_nat_fuel]. }
    exists c, s, d. split; [exact E|]. split; [exact Hc | intros; contradiction].
Qed.

Lemma read_int_part_show_nat (n : Z) (rest : string) :
  0 <= n -> no_digit_head rest ->
  read_int_part (show_nat n ++ rest) = Some (n, rest).
Proof.
  intros Hn Hrest.
  pose proof (read_digits_show_nat n rest Hn Hrest) as Hread.
  destruct (show_nat_head n Hn) as [c [s [d [E [Hc Hd]]]]].
  rewrite E in Hread |- *. cbn [append read_digits read_int_part] in Hread |- *.
  rewrite Hc in Hread |- *.
  destruct (d =? 0) eqn:Ed.
  - apply Z.eqb_eq in Ed. destruct (Hd Ed) as [-> ->]. reflexivity.
  - replace (10 * 0 + d) with d in Hread by lia. now rewrite Hread.
Qed.

Lemma digit_not_minus (c : ascii) (d : Z) : digit c = Some d -> Ascii.eqb c "-" = false.
Proof.
  destruct c as [[] [] [] [] [] [] [] []]; intros H; try reflexivity; discriminate H.
Qed.

Lemma read_signed_int_show_Z (z : Z) (tail : string) :
  no_digit_head tail ->
  exists sg n, z = sg * n /\ read_signed_int (show_Z z ++ tail) = Some (sg, n, tail).
Proof.
  intros Ht. unfold read_signed_int, show_Z. destruct (z <? 0) eqn:E.
  - apply Z.ltb_lt in E. exists (-1), (- z). split; [lia|].
    cbn [append expect]. cbn [Ascii.eqb Bool.eqb].
    rewrite read_int_part_show_nat by (assumption || lia). reflexivity.
  - apply Z.ltb_ge in E. exists 1, z. split; [lia|].
    destruct (show_nat_head z E) as [c [s [d [Hs [Hc _]]]]].
    assert (Hx : expect "-" (show_nat z ++ tail) = None).
    { rewrite Hs. cbn [append expect]. now rewrite (digit_not_minus c d Hc). }
    rewrite Hx. rewrite read_int_part_show_nat by assumption. reflexivity.
Qed.

(** A text that cannot continue a number. *)
Definition number_end (rest : string) : Prop :=
  match rest with
  | EmptyString => True
  | String c _ =>
      digit c = None /\ Ascii.eqb c "." = false /\ Ascii.eqb c "e" = false
      /\ Ascii.eqb c "E" = false
  end.

Lemma number_end_no_digit (rest : string) : number_end rest -> no_digit_head rest.
Proof. destruct rest; simpl; tauto. Qed.

Lemma parse_number_int (z : Z) (rest : string) :
  number_end rest -> parse_number (show_Z z ++ rest) = Some (JInt z, rest).
Proof.
  intros Hr. unfold parse_number.
  destruct (read_signed_int_show_Z z rest (number_end_no_digit _ Hr)) as [sg [n [-> ->]]].
  destruct rest as [|c r]; [reflexivity|].
  destruct Hr as [_ [H1 [H2 H3]]].
  unfold read_frac, read_exp, expect. rewrite Ascii.eqb_sym in H1.
  rewrite Ascii.eqb_sym, H1. rewrite H2, H3. reflexivity.
Qed.

Lemma read_sign_show_Z (e : Z) (rest : string) :
  no_digit_head rest ->
  exists sg n, e = sg * n /\ 0 <= n /\
    read_sign (show_Z e ++ rest) = (sg, show_nat n ++ rest).
Proof.
  intros Hr. unfold read_sign, show_Z. destruct (e <? 0) eqn:E.
  - apply Z.ltb_lt in E. exists (-1), (- e). split; [lia|]. split; [lia|]. reflexivity.
  - apply Z.ltb_ge in E. exists 1, e. split; [lia|]. split; [lia|].
    destruct (show_nat_head e E) as [c [s [d [Hs [Hc _]]]]].
    rewrite Hs. cbn [append expect].
    rewrite (digit_not_minus c d Hc).
    assert (Hp : Ascii.eqb c "+" = false).
    { clear -Hc. destruct c as [[] [] [] [] [] [] [] []]; try reflexivity; discriminate Hc. }
    now rewrite Hp.
Qed.

Lemma show_nat_length (n : Z) : 0 <= n -> exists k, String.length (show_nat n) = S k.
Proof.
  intros Hn. destruct (show_nat_head n Hn) as [c [s [d [Hs _]]]].
  rewrite Hs. now exists (String.length s).
Qed.

Lemma parse_number_float (m e : Z) (rest : string) :
  no_digit_head rest ->
  parse_number (show_Z m ++ String "e" (show_Z e ++ rest)) = Some (JFloat m e, rest).
Proof.
  intros Hr. unfold parse_number.
  destruct (read_signed_int_show_Z m (String "e" (show_Z e ++ rest)) eq_refl)
    as [sg [n [-> ->]]].
  unfold read_frac. cbn [expect Ascii.eqb Bool.eqb].
  unfold read_exp. cbn [Ascii.eqb Bool.eqb orb].
  destruct (read_sign_show_Z e rest Hr) as [sg' [n' [-> [Hn' ->]]]].
  rewrite read_digits_show_nat by assumption.
  destruct (show_nat_length n' Hn') as [k ->]. reflexivity.
Qed.

(** *** Strings *)

Lemma parse_string_escape_char (c : ascii) (tail : string) :
  parse_string_body (escape_char c ++ tail)
  = match parse_string_body tail with
    | Some (t, r) => Some (String c t, r)
    | None => None
    end.
Proof.
  destruct c as [[] [] [] [] [] [] [] []]; reflexivity.
Qed.

Lemma parse_string_escape (s rest : string) :
  parse_string_body (escape s ++ String dq rest) = Some (s, rest).
Proof.
  induction s as [|c s IH]; [reflexivity|].
  simpl escape. rewrite sapp_assoc, parse_string_escape_char, IH. reflexivity.
Qed.

Lemma parse_dumps_string (s rest : string) :
  parse_string_body (escape s ++ String dq "" ++ rest) = Some (s, rest).
Proof. apply parse_string_escape. Qed.

(** *** Values *)

Section JsonInduction.
Variable P : json -> Prop.
Hypothesis HNull : P JNull.
Hypothesis HBool : forall b, P (JBool b).
Hypothesis HInt : forall z, P (JInt z).
Hypothesis HFloat : forall m e, P (JFloat m e).
Hypothesis HStr : forall s, P (JStr s).
Hypothesis HArr : forall l, Forall P l -> P (JArr l).
Hypothesis HObj : forall d, Forall (fun kv => P (snd kv)) d -> P (JObj d).

Fixpoint json_induction (v : json) : P v :=
  match v with
  | JNull => HNull
  | JBool b => HBool b
  | JInt z => HInt z
  | JFloat m e => HFloat m e
  | JStr s => HStr s
  | JArr l =>
      HArr l ((fix go (l : list json) : Forall P l :=
                 match l with
                 | [] => Forall_nil P
                 | x :: r => Forall_cons x (json_induction x) (go r)
                 end) l)
  | JObj d =>
      HObj d ((fix go (d : list (string * json)) : Forall (fun kv => P (snd kv)) d :=
                 match d with
                 | [] => Forall_nil _
                 | kv :: r => Forall_cons kv (json_induction (snd kv)) (go r)
                 end) d)
  end.
End JsonInduction.

(** The recursion depth the decoder needs for a value. *)
Fixpoint json_size (v : json) : nat :=
  match v with
  | JArr l => S (list_sum (map (fun x => S (json_size x)) l))
  | JObj d => S (list_sum (map (fun kv => S (json_size (snd kv))) d))
  | _ => 1
  end.

(** A value as Python holds it: no [dict] has a key twice. *)
Fixpoint wf (v : json) : Prop :=
  match v with
  | JArr l => (fix all (l : list json) : Prop :=
                 match l with
                 | [] => True
                 | x :: r => wf x /\ all r
                 end) l
  | JObj d => NoDup (map fst d) /\
              (fix all (d : list (string * json)) : Prop :=
                 match d with
                 | [] => True
                 | kv :: r => wf (snd kv) /\ all r
                 end) d
  | _ => True
  end.

Lemma wf_arr_cons (x : json) (l : list json) : wf (JArr (x :: l)) <-> wf x /\ wf (JArr l).
Proof. reflexivity. Qed.

Lemma wf_obj_cons (k : string) (x : json) (d : list (string * json)) :
  wf (JObj ((k, x) :: d)) -> ~ In k (map fst d) /\ wf x /\ wf (JObj d).
Proof.
  intros [Hnd [Hx Hd]]. inversion Hnd; subst. repeat split; assumption.
Qed.

(** What may follow a value inside a text: nothing, a comma or a closing
    bracket. *)
Definition delim (rest : string) : Prop :=
  match rest with
  | EmptyString => True
  | String c _ => (Ascii.eqb c "," || Ascii.eqb c "]" || Ascii.eqb c "}")%bool = true
  end.

Lemma delim_number_end (rest : string) : delim rest -> number_end rest.
Proof.
  destruct rest as [|c r]; simpl; [trivial|]. intros H.
  apply Bool.orb_true_iff in H as [H|H]; [apply Bool.orb_true_iff in H as [H|H]|];
    apply Ascii.eqb_eq in H; subst; repeat split.
Qed.

(** The first character of an encoded value: not white space and not a
    closing bracket. *)
Definition value_head (s : string) : Prop :=
  match s with
  | EmptyString => False
  | String c _ =>
      is_ws c = false /\ Ascii.eqb c "]" = false /\ Ascii.eqb c "}" = false
  end.

Lemma value_head_skip_ws (s : string) : value_head s -> skip_ws s = s.
Proof. destruct s as [|c r]; simpl; [tauto|]. now intros [-> _]. Qed.

Lemma value_head_not_close (s : string) :
  value_head s -> expect "]" s = None /\ expect "}" s = None.
Proof.
  destruct s as [|c r]; simpl; [tauto|]. intros [_ [H1 H2]]. now rewrite H1, H2.
Qed.

Lemma digit_value_head (c : ascii) (d : Z) (r : string) :
  digit c = Some d -> value_head (String c r).
Proof.
  intros H. destruct c as [[] [] [] [] [] [] [] []]; try discriminate H; repeat split.
Qed.

Lemma show_Z_head (z : Z) (tail : string) :
  exists c r, show_Z z ++ tail = String c r /\
              (c = "-"%char \/ exists d, digit c = Some d).
Proof.
  unfold show_Z. destruct (z <? 0) eqn:E.
  - exists "-"%char, (show_nat (- z) ++ tail). split; [reflexivity | now left].
  - apply Z.ltb_ge in E. destruct (show_nat_head z E) as [c [s [d [Hs [Hc _]]]]].
    exists c, (s ++ tail). rewrite Hs. split; [reflexivity | right; now exists d].
Qed.

Lemma number_value_head (c : ascii) (r : string) :
  c = "-"%char \/ (exists d, digit c = Some d) -> value_head (String c r).
Proof.
  intros [-> | [d Hd]]; [repeat split | now apply (digit_value_head c d)].
Qed.

Lemma dumps_string_head (s tail : string) :
  dumps_string s ++ tail = String dq (escape s ++ String dq tail).
Proof. unfold dumps_string. cbn [append]. now rewrite sapp_assoc. Qed.

Lemma dumps_head (v : json) (tail : string) : value_head (dumps v ++ tail).
Proof.
  destruct v as [|[]|z|m e|s|l|d]; try (repeat split; fail).
  - cbn [dumps]. destruct (show_Z_head z tail) as [c [r [-> H]]].
    now apply number_value_head.
  - cbn [dumps]. rewrite sapp_assoc.
    destruct (show_Z_head m (String "e" (show_Z e) ++ tail)) as [c [r [-> H]]].
    now apply number_value_head.
Qed.

Lemma wf_arr_Forall (l : list json) : wf (JArr l) <-> Forall wf l.
Proof.
  induction l as [|x l IH].
  - split; [constructor | intros _; exact I].
  - rewrite wf_arr_cons, IH. split.
    + intros [Hx Hl]. now constructor.
    + intros H. inversion H; subst. now split.
Qed.

Lemma wf_obj_Forall (d : list (string * json)) :
  wf (JObj d) <-> NoDup (map fst d) /\ Forall (fun kv => wf (snd kv)) d.
Proof.
  cbn [wf]. apply and_iff_compat_l.
  induction d as [|kv d IH].
  - split; [constructor | intros _; exact I].
  - split.
    + intros [Hx Hd]. constructor; [assumption | now apply IH].
    + intros H. inversion H; subst. split; [assumption | now apply IH].
Qed.

(** Unfolding equations of the decoder. *)
Lemma parse_value_number (n : nat) (c : ascii) (r : string) :
  c = "-"%char \/ (exists d, digit c = Some d) ->
  parse_value (S n) (String c r) = parse_number (String c r).
Proof.
  intros [-> | [d Hd]]; [reflexivity|].
  destruct c as [[] [] [] [] [] [] [] []]; try discriminate Hd; reflexivity.
Qed.

Lemma parse_value_str (n : nat) (r : string) :
  parse_value (S n) (String dq r)
  = match parse_string_body r with
    | Some (t, r1) => Some (JStr t, r1)
    | None => None
    end.
Proof. reflexivity. Qed.

Lemma parse_value_arr (n : nat) (r : string) :
  parse_value (S n) (String "[" r)
  = match expect "]" (skip_ws r) with
    | Some r1 => Some (JArr [], r1)
    | None =>
        match parse_elems n (skip_ws r) with
        | Some (l, r2) => Some (JArr l, r2)
        | None => None
        end
    end.
Proof. reflexivity. Qed.

Lemma parse_value_obj (n : nat) (r : string) :
  parse_value (S n) (String "{" r)
  = match expect "}" (skip_ws r) with
    | Some r1 => Some (JObj [], r1)
    | None =>
        match parse_members n (skip_ws r) with
        | Some (d, r2) => Some (JObj (dict_of_pairs d), r2)
        | None => None
        end
    end.
Proof. reflexivity. Qed.

Lemma parse_elems_S (n : nat) (s : string) :
  parse_elems (S n) s
  = match parse_value n s with
    | None => None
    | Some (v, r) =>
        match expect "]" (skip_ws r) with
        | Some r1 => Some ([v], r1)
        | None =>
            match expect "," (skip_ws r) with
            | Some r1 =>
                match parse_elems n (skip_ws r1) with
                | Some (l, r2) => Some (v :: l, r2)
                | None => None
                end
            | None => None
            end
        end
    end.
Proof. reflexivity. Qed.

Lemma parse_members_S (n : nat) (r : string) :
  parse_members (S n) (String dq r)
  = match parse_string_body r with
    | None => None
    | Some (k, r1) =>
        match expect ":" (skip_ws r1) with
        | Some r2 =>
            match parse_value n (skip_ws r2) with
            | None => None
            | Some (v, r3) =>
                match expect "}" (skip_ws r3) with
                | Some r4 => Some ([(k, v)], r4)
                | None =>
                    match expect "," (skip_ws r3) with
                    | Some r4 =>
                        match parse_members n (skip_ws r4) with
                        | Some (d, r5) => Some ((k, v) :: d, r5)
                        | None => None
                        end
                    | None => None
                    end
                end
            end
        | None => None
        end
    end.
Proof. reflexivity. Qed.

(** The property proved by induction on the value. *)
Definition round_trips (x : json) : Prop :=
  forall n rest, (json_size x <= n)%nat -> delim rest ->
                 parse_value n (dumps x ++ rest) = Some (x, rest).

Lemma dumps_elems_cons (x y : json) (l : list json) :
  dumps_elems dumps (x :: y :: l) = dumps x ++ ", " ++ dumps_elems dumps (y :: l).
Proof. reflexivity. Qed.

Lemma dumps_elems_head (x : json) (l : list json) (tail : string) :
  value_head (dumps_elems dumps (x :: l) ++ tail).
Proof.
  destruct l as [|y l].
  - apply dumps_head.
  - rewrite dumps_elems_cons, sapp_assoc. apply dumps_head.
Qed.

Lemma after_comma (X : string) :
  value_head X ->
  skip_ws (String "," (String " " X)) = String "," (String " " X) /\
  expect "]" (String "," (String " " X)) = None /\
  expect "}" (String "," (String " " X)) = None /\
  expect "," (String "," (String " " X)) = Some (String " " X) /\
  skip_ws (String " " X) = X.
Proof.
  intros H. repeat split. change (skip_ws (String " " X)) with (skip_ws X).
  now apply value_head_skip_ws.
Qed.

Lemma parse_elems_dumps (l : list json) :
  l <> [] -> Forall round_trips l ->
  forall n rest,
    (list_sum (map (fun x => S (json_size x)) l) <= n)%nat ->
    parse_elems n (dumps_elems dumps l ++ String "]" rest) = Some (l, rest).
Proof.
  induction l as [|x l IH]; intros Hne Hall n rest Hn; [contradiction|].
  inversion Hall as [|? ? Hx Hl]; subst.
  cbn [map list_sum] in Hn. destruct n as [|n]; [cbn in Hn; lia|].
  rewrite parse_elems_S. destruct l as [|y l].
  - cbn [dumps_elems]. rewrite Hx by (cbn in Hn |- *; (lia || reflexivity)).
    reflexivity.
  - rewrite dumps_elems_cons, !sapp_assoc. cbn [append].
    rewrite Hx by (cbn in Hn |- *; (lia || reflexivity)).
    assert (Hy : parse_elems n (dumps_elems dumps (y :: l) ++ String "]" rest)
                 = Some (y :: l, rest)).
    { apply IH; [discriminate | assumption | cbn in Hn |- *; lia]. }
    destruct (after_comma _ (dumps_elems_head y l (String "]" rest)))
      as (E1 & E2 & _ & E4 & E5).
    rewrite E1, E2, E4, E5, Hy. reflexivity.
Qed.

Lemma dumps_members_cons (k : string) (x : json) (kv : string * json)
      (d : list (string * json)) :
  dumps_members dumps ((k, x) :: kv :: d)
  = dumps_string k ++ ": " ++ dumps x ++ ", " ++ dumps_members dumps (kv :: d).
Proof. reflexivity. Qed.

Lemma dumps_members_head (kv : string * json) (d : list (string * json)) (tail : string) :
  exists r, dumps_members dumps (kv :: d) ++ tail = String dq r.
Proof.
  destruct kv as [k x]. destruct d as [|kv' d].
  - cbn [dumps_members]. rewrite sapp_assoc, dumps_string_head. now eexists.
  - rewrite dumps_members_cons, sapp_assoc, dumps_string_head. now eexists.
Qed.

Lemma after_colon (X : string) :
  value_head X ->
  skip_ws (String ":" (String " " X)) = String ":" (String " " X) /\
  expect ":" (String ":" (String " " X)) = Some (String " " X) /\
  skip_ws (String " " X) = X.
Proof.
  intros H. repeat split. change (skip_ws (String " " X)) with (skip_ws X).
  now apply value_head_skip_ws.
Qed.

Lemma parse_members_dumps (d : list (string * json)) :
  d <> [] -> Forall (fun kv => round_trips (snd kv)) d ->
  forall n rest,
    (list_sum (map (fun kv => S (json_size (snd kv))) d) <= n)%nat ->
    parse_members n (dumps_members dumps d ++ String "}" rest) = Some (d, rest).
Proof.
  induction d as [|[k x] d IH]; intros Hne Hall n rest Hn; [contradiction|].
  inversion Hall as [|? ? Hx Hd]; subst. cbn [snd] in Hx.
  cbn [map list_sum snd] in Hn. destruct n as [|n]; [cbn in Hn; lia|].
  destruct d as [|kv d].
  - cbn [dumps_members]. rewrite sapp_assoc, dumps_string_head.
    rewrite parse_members_S, parse_string_escape.
    rewrite sapp_assoc. cbn [append].
    destruct (after_colon _ (dumps_head x (String "}" rest))) as (E1 & E2 & E3).
    rewrite E1, E2, E3.
    rewrite Hx by (cbn in Hn |- *; (lia || reflexivity)).
    reflexivity.
  - rewrite dumps_members_cons, sapp_assoc, dumps_string_head.
    rewrite parse_members_S, parse_string_escape.
    rewrite !sapp_assoc. cbn [append].
    destruct (after_colon _
                (dumps_head x (String "," (String " "
                   (dumps_members dumps (kv :: d) ++ String "}" rest)))))
      as (E1 & E2 & E3).
    rewrite E1, E2, E3.
    rewrite Hx by (cbn in Hn |- *; (lia || reflexivity)).
    assert (Hy : parse_members n (dumps_members dumps (kv :: d) ++ String "}" rest)
                 = Some (kv :: d, rest)).
    { apply IH; [discriminate | assumption | cbn in Hn |- *; lia]. }
    destruct (dumps_members_head kv d (String "}" rest)) as [r Hr].
    assert (Hh : value_head (dumps_members dumps (kv :: d) ++ String "}" rest))
      by (rewrite Hr; repeat split).
    destruct (after_comma _ Hh) as (F1 & _ & F3 & F4 & F5).
    rewrite F1, F3, F4, F5, Hy. reflexivity.
Qed.

Lemma dict_set_fresh (k : string) (v : json) (d : dict) :
  ~ In k (map fst d) -> dict_set k v d = (d ++ [(k, v)])%list.
Proof.
  induction d as [|[k' v'] d IH]; intros H; [reflexivity|].
  cbn [dict_set]. destruct (String.eqb k k') eqn:E.
  - apply String.eqb_eq in E. subst. exfalso. apply H. now left.
  - cbn [List.app]. rewrite IH; [reflexivity|]. intros Hin. apply H. now right.
Qed.

Lemma dict_of_pairs_acc (d acc : dict) :
  NoDup (map fst (acc ++ d)) ->
  fold_left (fun a kv => dict_set (fst kv) (snd kv) a) d acc = (acc ++ d)%list.
Proof.
  revert acc. induction d as [|[k v] d IH]; intros acc H.
  - cbn [fold_left]. now rewrite app_nil_r.
  - cbn [fold_left fst snd]. rewrite dict_set_fresh.
    + rewrite IH; rewrite <- app_assoc; [reflexivity | exact H].
    + rewrite map_app in H. cbn [map fst] in H.
      apply NoDup_remove_2 in H. intros Hin. apply H. apply in_or_app. now left.
Qed.

Lemma dict_of_pairs_nodup (d : dict) : NoDup (map fst d) -> dict_of_pairs d = d.
Proof. intros H. unfold dict_of_pairs. now rewrite dict_of_pairs_acc. Qed.

Lemma Forall_round_trips (l : list json) :
  Forall (fun x => wf x -> round_trips x) l -> Forall wf l -> Forall round_trips l.
Proof.
  induction 1 as [|x l Hx _ IH]; intros Hw; [constructor|].
  inversion Hw; subst. constructor; [now apply Hx | now apply IH].
Qed.

Lemma Forall_round_trips_snd (d : list (string * json)) :
  Forall (fun kv => wf (snd kv) -> round_trips (snd kv)) d ->
  Forall (fun kv => wf (snd kv)) d -> Forall (fun kv => round_trips (snd kv)) d.
Proof.
  induction 1 as [|x l Hx _ IH]; intros Hw; [constructor|].
  inversion Hw; subst. constructor; [now apply Hx | now apply IH].
Qed.

(** Decoding the text of a value, with enough depth and in front of a
    delimiter, gives the value back and leaves the delimiter. *)
Lemma parse_dumps (v : json) : wf v -> round_trips v.
Proof.
  induction v as [| b | z | m e | s | l IH | d IH] using json_induction;
    intros Hwf n rest Hn Hrest;
    (destruct n as [|n]; [cbn in Hn; lia|]).
  - reflexivity.
  - destruct b; reflexivity.
  - cbn [dumps]. destruct (show_Z_head z rest) as [c [r [E H]]].
    rewrite E, (parse_value_number n c r H), <- E.
    apply parse_number_int. now apply delim_number_end.
  - cbn [dumps]. rewrite sapp_assoc.
    destruct (show_Z_head m (String "e" (show_Z e) ++ rest)) as [c [r [E H]]].
    rewrite E, (parse_value_number n c r H), <- E. cbn [append].
    apply parse_number_float.
    apply number_end_no_digit. now apply delim_number_end.
  - cbn [dumps]. rewrite dumps_string_head, parse_value_str, parse_string_escape.
    reflexivity.
  - apply wf_arr_Forall in Hwf. pose proof (Forall_round_trips l IH Hwf) as Hall.
    cbn [dumps append]. rewrite parse_value_arr, sapp_assoc. cbn [append].
    destruct l as [|x l]; [reflexivity|].
    pose proof (dumps_elems_head x l (String "]" rest)) as Hh.
    rewrite (value_head_skip_ws _ Hh).
    destruct (value_head_not_close _ Hh) as [-> _].
    rewrite parse_elems_dumps; [reflexivity | discriminate | assumption |].
    cbn [json_size] in Hn. lia.
  - apply wf_obj_Forall in Hwf as [Hnd Hwf].
    pose proof (Forall_round_trips_snd d IH Hwf) as Hall.
    cbn [dumps append]. rewrite parse_value_obj, sapp_assoc. cbn [append].
    destruct d as [|kv d]; [reflexivity|].
    destruct (dumps_members_head kv d (String "}" rest)) as [r Hr].
    assert (Hh : value_head (dumps_members dumps (kv :: d) ++ String "}" rest))
      by (rewrite Hr; repeat split).
    rewrite (value_head_skip_ws _ Hh).
    destruct (value_head_not_close _ Hh) as [_ ->].
    rewrite parse_members_dumps; [| discriminate | assumption |].
    + now rewrite dict_of_pairs_nodup.
    + cbn [json_size] in Hn. lia.
Qed.

Lemma show_Z_length (z : Z) : (1 <= String.length (show_Z z))%nat.
Proof.
  destruct (show_Z_head z "") as [c [r [E _]]]. rewrite sapp_nil_r in E.
  rewrite E. cbn [String.length]. lia.
Qed.

Lemma elems_size_le (l : list json) :
  Forall (fun x => (json_size x <= String.length (dumps x))%nat) l ->
  (list_sum (map (fun x => S (json_size x)) l)
   <= String.length (dumps_elems dumps l) + 1)%nat.
Proof.
  induction 1 as [|x l Hx Hl IH]; [cbn; lia|].
  unfold list_sum in IH |- *. destruct l as [|y l].
  - cbn [map fold_right dumps_elems]. lia.
  - rewrite dumps_elems_cons, !slength_app.
    cbn [map fold_right String.length] in IH |- *. lia.
Qed.

Lemma members_size_le (d : list (string * json)) :
  Forall (fun kv => (json_size (snd kv) <= String.length (dumps (snd kv)))%nat) d ->
  (list_sum (map (fun kv => S (json_size (snd kv))) d)
   <= String.length (dumps_members dumps d) + 1)%nat.
Proof.
  induction 1 as [|[k x] d Hx Hd IH]; [cbn; lia|].
  cbn [snd] in Hx. unfold list_sum in IH |- *. destruct d as [|kv d].
  - cbn [map fold_right dumps_members snd]. rewrite !slength_app.
    cbn [String.length]. lia.
  - rewrite dumps_members_cons, !slength_app.
    cbn [map fold_right String.length snd] in IH |- *. lia.
Qed.

(** The length of the text bounds the depth the decoder needs. *)
Lemma json_size_le_length (v : json) : (json_size v <= String.length (dumps v))%nat.
Proof.
  induction v as [| b | z | m e | s | l IH | d IH] using json_induction.
  - cbn. lia.
  - destruct b; cbn; lia.
  - cbn [json_size dumps]. apply show_Z_length.
  - cbn [json_size dumps]. rewrite slength_app. pose proof (show_Z_length m). lia.
  - cbn [json_size dumps]. unfold dumps_string. cbn [String.length]. lia.
  - cbn [json_size dumps String.length]. rewrite slength_app. cbn [String.length].
    pose proof (elems_size_le l IH). lia.
  - cbn [json_size dumps String.length]. rewrite slength_app. cbn [String.length].
    pose proof (members_size_le d IH). lia.
Qed.

(** [json.loads(json.dumps(v)) == v]. *)
Theorem loads_dumps (v : json) : wf v -> loads (dumps v) = Some v.
Proof.
  intros Hwf. unfold loads.
  pose proof (dumps_head v "") as Hh. rewrite sapp_nil_r in Hh.
  rewrite (value_head_skip_ws _ Hh).
  rewrite <- (sapp_nil_r (dumps v)) at 2.
  rewrite (parse_dumps v Hwf); [reflexivity | apply json_size_le_length | exact I].
Qed.

Lemma loads_or_dumps (v default : json) :
  wf v -> loads_or (Some (dumps v)) default = Ok v.
Proof.
  intros Hwf. unfold loads_or.
  assert (Hne : String.eqb (dumps v) "" = false).
  { pose proof (dumps_head v "") as Hh. rewrite sapp_nil_r in Hh.
    destruct (dumps v); [destruct Hh | reflexivity]. }
  now rewrite Hne, loads_dumps.
Qed.

(** * Further properties of the handlers *)

(** ** Primary keys *)

Lemma next_id_above (ids : list Z) (x : Z) : In x ids -> x < next_id ids.
Proof.
  unfold next_id. induction ids as [|y ids IH]; intros H; [destruct H|].
  cbn [fold_right]. destruct H as [->|H]; [lia|]. specialize (IH H). lia.
Qed.

Lemma next_id_positive (ids : list Z) : 1 <= next_id ids.
Proof.
  unfold next_id. induction ids as [|y ids IH]; cbn [fold_right]; lia.
Qed.

Lemma find_app_new {A} (f : A -> bool) (l : list A) (x : A) :
  (forall y, In y l -> f y = false) -> f x = true -> find f (l ++ [x]) = Some x.
Proof.
  intros Hl Hx. induction l as [|y l IH]; cbn [List.app find].
  - now rewrite Hx.
  - rewrite (Hl y (or_introl eq_refl)). apply IH. intros z Hz. apply Hl. now right.
Qed.

Lemma find_app_old {A} (f : A -> bool) (l : list A) (x y : A) :
  find f l = Some y -> find f (l ++ [x]) = Some y.
Proof.
  induction l as [|z l IH]; cbn [List.app find]; [discriminate|].
  destruct (f z); [trivial | exact IH].
Qed.


(** ** Creating a listing and reading it back *)





Definition sample_lost_bird_request : dict :=
  [("user_id", JInt 1); ("name", JStr "Kiwi"); ("description", JStr "green parakeet");
   ("last_seen_location", JStr "Chatuchak"); ("lost_date", JStr "2024-05-01T10:30:00Z");
   ("characteristics",
    JObj [("size", JStr "medium"); ("colors", JArr [JStr "green"; JStr "pink"]);
          ("ring", JInt (-7)); ("tame", JBool true); ("weight", JFloat 1185 (-1))]);
   ("photos", JArr [JStr "/api/uploads/a.png"; JStr "/api/uploads/b.png"]);
   ("contact_info", JObj [("phone", JStr "0812345678"); ("line", JNull)]);
   ("last_seen_lat", JFloat 138 (-1)); ("last_seen_lng", JInt 100)].


(** ** Reading a listing that is not there, or whose owner is not *)

Lemma find_none_iff {A} (f : A -> bool) (l : list A) :
  find f l = None <-> forall x, In x l -> f x = false.
Proof.
  induction l as [|y l IH]; cbn [find].
  - split; [intros _ x [] | reflexivity].
  - destruct (f y) eqn:E.
    + split; [discriminate|]. intros H. rewrite (H y (or_introl eq_refl)) in E.
      discriminate.
    + rewrite IH. split.
      * intros H x [->|Hx]; [exact E | now apply H].
      * intros H x Hx. apply H. now right.
Qed.

(** [get_lost_bird] replies 200 or 500 and nothing else: the 404 that
    [get_or_404] raises for an unknown id is caught by the handler's own
    [except] clause and leaves as a 500. *)
Theorem get_lost_bird_unknown_id (bird_id : Z) (st : Store) :
  (forall b, In b (lost_birds st) -> id b <> bird_id) ->
  status_code (get_lost_bird bird_id st) = 500 /\
  field (body (get_lost_bird bird_id st)) "id" = None /\
  (forall other, status_code (get_lost_bird other st) = 200
                 \/ status_code (get_lost_bird other st) = 500).
Proof.
  intros Hno. assert (Hfind : find (fun b => id b =? bird_id) (lost_birds st) = None).
  { apply find_none_iff. intros b Hb. apply Z.eqb_neq. now apply Hno. }
  split; [|split].
  - unfold get_lost_bird, get_or_404. now rewrite Hfind.
  - unfold get_lost_bird, get_or_404. now rewrite Hfind.
  - intros other. unfold get_lost_bird.
    repeat match goal with
           | |- context [bind ?c _] =>
               destruct c as [?|?]; cbn [bind handle fst status_code error_response];
               [| now right]
           end.
    now left.
Qed.

Lemma get_lost_bird_unknown_id_witness :
  status_code (get_lost_bird 5 far_store) = 500 /\
  field (body (get_lost_bird 5 far_store)) "id" = None /\
  (forall other, status_code (get_lost_bird other far_store) = 200
                 \/ status_code (get_lost_bird other far_store) = 500).
Proof.
  apply (get_lost_bird_unknown_id 5 far_store).
  intros b [<- | []]. discriminate.
Defined.

Lemma mapM_raise {A B} (f : A -> result B) (l : list A) (x : A) :
  In x l -> (exists msg, f x = Raise msg) -> exists msg, mapM f l = Raise msg.
Proof.
  intros Hin [msg Hx]. induction l as [|y l IH]; [destruct Hin|].
  cbn [mapM]. destruct Hin as [->|Hin].
  - rewrite Hx. now exists msg.
  - destruct (f y) as [b|m]; cbn [bind]; [|now exists m].
    destruct (IH Hin) as [m ->]. now exists m.
Qed.

Lemma bird_data_orphan (st : Store) (b : LostBird) :
  owner st b = None -> exists msg, bird_data st b = Raise msg.
Proof.
  intros Ho. unfold bird_data.
  destruct (loads_or (characteristics b) (JObj [])); cbn [bind]; [|now eexists].
  destruct (loads_or (photos b) (JArr [])); cbn [bind]; [|now eexists].
  rewrite Ho. now eexists.
Qed.

(** A listing whose user_id has no User row cannot be read: its detail
    reply is a 500, and so is every page of the list that contains it. *)
Theorem orphan_listing_unreadable (st : Store) (b : LostBird) :
  find (fun r => id r =? id b) (lost_birds st) = Some b ->
  owner st b = None ->
  status_code (get_lost_bird (id b) st) = 500 /\
  (forall args rows,
      lost_birds_query args st = Ok rows ->
      In b (items (paginate (arg_or (arg_page args) 1)
                            (arg_or (arg_per_page args) 20) rows)) ->
      status_code (get_lost_birds args st) = 500).
Proof.
  intros Hfind Ho. split.
  - unfold get_lost_bird, get_or_404. rewrite Hfind. cbn [bind].
    destruct (loads_or (characteristics b) (JObj [])); cbn [bind handle fst]; [|reflexivity].
    destruct (loads_or (photos b) (JArr [])); cbn [bind handle fst]; [|reflexivity].
    destruct (loads_or (contact_info b) (JObj [])); cbn [bind handle fst]; [|reflexivity].
    rewrite Ho. reflexivity.
  - intros args rows Hq Hin. unfold get_lost_birds. rewrite Hq. cbn [bind].
    destruct (mapM_raise (bird_data st) _ b Hin (bird_data_orphan st b Ho)) as [msg ->].
    reflexivity.
Qed.

Lemma orphan_listing_unreadable_witness :
  status_code (get_lost_bird (id (sample_bird 1 80 100 sample_now)) orphan_store) = 500 /\
  (forall args rows,
      lost_birds_query args orphan_store = Ok rows ->
      In (sample_bird 1 80 100 sample_now)
         (items (paginate (arg_or (arg_page args) 1)
                          (arg_or (arg_per_page args) 20) rows)) ->
      status_code (get_lost_birds args orphan_store) = 500).
Proof.
  apply (orphan_listing_unreadable orphan_store (sample_bird 1 80 100 sample_now)).
  - reflexivity.
  - reflexivity.
Defined.

(** ** All or nothing: what a write handler does to the store *)

(** The outcome of a create handler on a table: one row appended with
    status 201, or the store untouched with status 400 or 500. *)
Lemma create_lost_bird_outcome (now : datetime) (data : json) (st : Store) :
  let (resp, st') := create_lost_bird now data st in
  (status_code resp = 201 /\
   exists row,
     st' = mkStore (users st) (species st) (lost_birds st ++ [row])
                   (found_birds st) (sightings st) /\
     id row = next_id (map id (lost_birds st)) /\
     field (body resp) "id" = Some (JInt (id row)) /\
     status row = "lost" /\ created_at row = now) \/
  ((status_code resp = 400 \/ status_code resp = 500) /\ st' = st).
Proof.
  unfold create_lost_bird.
  destruct (check_required data _) as [[f|]|m]; cbn [bind handle];
    [right; split; [now left | reflexivity] | | right; split; [now right | reflexivity]].
  repeat match goal with
         | |- context [bind ?c _] =>
             destruct c as [?|?]; cbn [bind handle];
             [| right; split; [now right | reflexivity]]
         end.
  left. split; [reflexivity|]. eexists. split; [reflexivity|]. repeat split.
Qed.

(** [create_lost_bird] writes one row or nothing. *)
Theorem create_lost_bird_all_or_nothing (now : datetime) (data : json) (st : Store) :
  let (resp, st') := create_lost_bird now data st in
  (status_code resp = 201 /\
   exists row,
     st' = mkStore (users st) (species st) (lost_birds st ++ [row])
                   (found_birds st) (sightings st) /\
     id row = next_id (map id (lost_birds st)) /\
     field (body resp) "id" = Some (JInt (id row)) /\
     status row = "lost" /\ created_at row = now) \/
  ((status_code resp = 400 \/ status_code resp = 500) /\ st' = st).
Proof. exact (create_lost_bird_outcome now data st). Qed.

Lemma create_sighting_outcome (now : datetime) (data : json) (st : Store) :
  let (resp, st') := create_sighting now data st in
  (status_code resp = 201 /\
   exists row,
     st' = mkStore (users st) (species st) (lost_birds st) (found_birds st)
                   (sightings st ++ [row]) /\
     sighting_pk row = next_id (map sighting_pk (sightings st)) /\
     field (body resp) "id" = Some (JInt (sighting_pk row)) /\
     verified row = false /\ sighting_created_at row = now) \/
  ((status_code resp = 400 \/ status_code resp = 500) /\ st' = st).
Proof.
  unfold create_sighting.
  destruct (check_required data _) as [[f|]|m]; cbn [bind handle];
    [right; split; [now left | reflexivity] | | right; split; [now right | reflexivity]].
  repeat match goal with
         | |- context [bind ?c _] =>
             destruct c as [?|?]; cbn [bind handle];
             [| right; split; [now right | reflexivity]]
         end.
  left. split; [reflexivity|]. eexists. split; [reflexivity|]. repeat split.
Qed.

(** [create_sighting] writes one row or nothing. *)
Theorem create_sighting_all_or_nothing (now : datetime) (data : json) (st : Store) :
  let (resp, st') := create_sighting now data st in
  (status_code resp = 201 /\
   exists row,
     st' = mkStore (users st) (species st) (lost_birds st) (found_birds st)
                   (sightings st ++ [row]) /\
     sighting_pk row = next_id (map sighting_pk (sightings st)) /\
     field (body resp) "id" = Some (JInt (sighting_pk row)) /\
     verified row = false /\ sighting_created_at row = now) \/
  ((status_code resp = 400 \/ status_code resp = 500) /\ st' = st).
Proof. exact (create_sighting_outcome now data st). Qed.

Lemma register_outcome (generate_password_hash : string -> string)
        (now : datetime) (data : json) (st : Store) :
  let (resp, st') := register generate_password_hash now data st in
  (status_code resp = 201 /\
   exists user,
     st' = mkStore (users st ++ [user]) (species st) (lost_birds st)
                   (found_birds st) (sightings st) /\
     user_pk user = next_id (map user_pk (users st)) /\
     field (body resp) "user_id" = Some (JInt (user_pk user)) /\
     getitem data "email" = Ok (JStr (email user)) /\
     (forall u, In u (users st) -> email u <> email user) /\
     (exists pw, getitem data "password" = Ok (JStr pw)
                 /\ password_hash user = generate_password_hash pw)) \/
  ((status_code resp = 400 \/ status_code resp = 500) /\ st' = st).
Proof.
  unfold register.
  destruct (check_required data _) as [[f|]|m]; cbn [bind handle];
    [right; split; [now left | reflexivity] | | right; split; [now right | reflexivity]].
  destruct (getitem data "email") as [e|m] eqn:He; cbn [bind handle];
    [| right; split; [now right | reflexivity]].
  destruct e as [| | | | e | |]; cbn [bind_str bind handle not_null];
    try (right; split; [now right | reflexivity]).
  destruct (find (fun u => String.eqb (email u) e) (users st)) eqn:Hfind; cbn [handle];
    [right; split; [now left | reflexivity]|].
  destruct (getitem data "password") as [pw|m] eqn:Hpw; cbn [bind handle];
    [| right; split; [now right | reflexivity]].
  destruct pw as [| | | | pw | |]; cbn [as_str bind handle];
    try (right; split; [now right | reflexivity]).
  repeat match goal with
         | |- context [bind ?c _] =>
             destruct c as [?|?]; cbn [bind handle];
             [| right; split; [now right | reflexivity]]
         end.
  left. split; [reflexivity|]. eexists. split; [reflexivity|].
  cbn [user_pk email password_hash body field dict_lookup String.eqb].
  split; [reflexivity|]. split; [reflexivity|]. split; [reflexivity|]. split.
  - intros u Hu. apply String.eqb_neq. exact (proj1 (find_none_iff _ _) Hfind u Hu).
  - exists pw. split; reflexivity.
Qed.


Lemma NoDup_app_new {A} (l : list A) (x : A) :
  NoDup l -> ~ In x l -> NoDup (l ++ [x]).
Proof.
  intros Hl Hx. induction Hl as [|y l Hy Hl IH]; cbn [List.app].
  - constructor; [intros [] | constructor].
  - constructor.
    + intros Hin. apply in_app_or in Hin as [Hin | [-> | []]]; [contradiction|].
      apply Hx. now left.
    + apply IH. intros Hin. apply Hx. now right.
Qed.

(** [register] keeps the User table's keys: e-mail addresses stay pairwise
    different (the column is declared unique) and so do primary keys. *)
Theorem register_keeps_users_unique (generate_password_hash : string -> string)
        (now : datetime) (data : json) (st : Store) :
  NoDup (map email (users st)) -> NoDup (map user_pk (users st)) ->
  NoDup (map email (users (snd (register generate_password_hash now data st)))) /\
  NoDup (map user_pk (users (snd (register generate_password_hash now data st)))).
Proof.
  intros He Hk.
  pose proof (register_outcome generate_password_hash now data st) as H.
  destruct (register generate_password_hash now data st) as [resp st'].
  cbn [snd]. destruct H as [[_ [user [-> [Hpk [_ [_ [Hnew _]]]]]]] | [_ ->]];
    [|now split].
  cbn [users]. rewrite !map_app. cbn [map]. split.
  - apply NoDup_app_new; [assumption|]. intros Hin.
    apply in_map_iff in Hin as [u [Hu Hin]]. exact (Hnew u Hin Hu).
  - apply NoDup_app_new; [assumption|]. intros Hin. rewrite Hpk in Hin.
    pose proof (next_id_above _ _ Hin). lia.
Qed.

Lemma register_keeps_users_unique_witness :
  NoDup (map email (users (snd (register (fun pw => pw) sample_now
     (JObj [("email", JStr "bob@example.com"); ("password", JStr "pw");
            ("name", JStr "Bob")]) sample_store)))) /\
  NoDup (map user_pk (users (snd (register (fun pw => pw) sample_now
     (JObj [("email", JStr "bob@example.com"); ("password", JStr "pw");
            ("name", JStr "Bob")]) sample_store)))).
Proof.
  apply (register_keeps_users_unique (fun pw => pw) sample_now
           (JObj [("email", JStr "bob@example.com"); ("password", JStr "pw");
                  ("name", JStr "Bob")]) sample_store).
  - cbn. repeat constructor. intros [].
  - cbn. repeat constructor. intros [].
Defined.

(** Primary keys of LostBird and SightingReport rows stay pairwise
    different under the create handlers. *)
Theorem create_keeps_primary_keys (now : datetime) (data : json) (st : Store) :
  NoDup (map id (lost_birds st)) -> NoDup (map sighting_pk (sightings st)) ->
  NoDup (map id (lost_birds (snd (create_lost_bird now data st)))) /\
  NoDup (map sighting_pk (sightings (snd (create_lost_bird now data st)))) /\
  NoDup (map id (lost_birds (snd (create_sighting now data st)))) /\
  NoDup (map sighting_pk (sightings (snd (create_sighting now data st)))).
Proof.
  intros Hb Hs.
  pose proof (create_lost_bird_outcome now data st) as H1.
  pose proof (create_sighting_outcome now data st) as H2.
  destruct (create_lost_bird now data st) as [r1 st1].
  destruct (create_sighting now data st) as [r2 st2]. cbn [snd].
  assert (G1 : NoDup (map id (lost_birds st1)) /\ NoDup (map sighting_pk (sightings st1))).
  { destruct H1 as [[_ [row [-> [Hid _]]]] | [_ ->]]; [|now split].
    cbn [lost_birds sightings]. split; [|assumption].
    rewrite map_app. cbn [map]. apply NoDup_app_new; [assumption|].
    intros Hin. rewrite Hid in Hin. pose proof (next_id_above _ _ Hin). lia. }
  assert (G2 : NoDup (map id (lost_birds st2)) /\ NoDup (map sighting_pk (sightings st2))).
  { destruct H2 as [[_ [row [-> [Hid _]]]] | [_ ->]]; [|now split].
    cbn [lost_birds sightings]. split; [assumption|].
    rewrite map_app. cbn [map]. apply NoDup_app_new; [assumption|].
    intros Hin. rewrite Hid in Hin. pose proof (next_id_above _ _ Hin). lia. }
  tauto.
Qed.

Lemma create_keeps_primary_keys_witness :
  NoDup (map id (lost_birds (snd (create_lost_bird sample_now
            (JObj sample_lost_bird_request) far_store)))) /\
  NoDup (map sighting_pk (sightings (snd (create_lost_bird sample_now
            (JObj sample_lost_bird_request) far_store)))) /\
  NoDup (map id (lost_birds (snd (create_sighting sample_now
            (JObj sample_lost_bird_request) far_store)))) /\
  NoDup (map sighting_pk (sightings (snd (create_sighting sample_now
            (JObj sample_lost_bird_request) far_store)))).
Proof.
  apply (create_keeps_primary_keys sample_now (JObj sample_lost_bird_request) far_store).
  - cbn. repeat constructor. intros [].
  - cbn. constructor.
Defined.

(** ** POST /api/login *)

Section Login.

(** werkzeug's [check_password_hash(pwhash, password)], given the stored
    hash and the request's value as it is; it may raise on a value that is
    not a string. *)
Variable check_password_hash : string -> json -> result bool.

Definition find_user_by_email (e : option string) (st : Store) : option User :=
  match e with
  | Some e => find (fun u => String.eqb (email u) e) (users st)
  | None => None
  end.

Definition login (data : json) (st : Store) : Response :=
  fst (handle tt (
    e <- get data "email" ;;
    e <- bind_str e ;;
    match find_user_by_email e st with
    | Some user =>
        pw <- get data "password" ;;
        ok <- check_password_hash (password_hash user) pw ;;
        if ok
        then Ok (mkResponse (JObj [("message", JStr "Login successful");
                                   ("user_id", JInt (user_pk user));
                                   ("name", JStr (user_name user))]) 200, tt)
        else Ok (error_response "Invalid credentials" 401, tt)
    | None => Ok (error_response "Invalid credentials" 401, tt)
    end)).

End Login.

Lemma find_by_email_in (e : string) (l : list User) (u : User) :
  find (fun x => String.eqb (email x) e) l = Some u -> In u l /\ email u = e.
Proof.
  intros H. apply find_some in H as [Hin He]. split; [assumption|].
  now apply String.eqb_eq.
Qed.

(** Logging in with the e-mail address and password of a registration that
    succeeded is answered with 200 and the user_id the registration
    returned, as long as the password hash checks against its own
    password. *)
Theorem login_after_register
        (generate_password_hash : string -> string)
        (check_password_hash : string -> json -> result bool)
        (now : datetime) (d d' : dict) (st : Store) :
  (forall pw, check_password_hash (generate_password_hash pw) (JStr pw) = Ok true) ->
  status_code (fst (register generate_password_hash now (JObj d) st)) = 201 ->
  dict_lookup "email" d' = dict_lookup "email" d ->
  dict_lookup "password" d' = dict_lookup "password" d ->
  let (resp, st') := register generate_password_hash now (JObj d) st in
  let reply := login check_password_hash (JObj d') st' in
  status_code reply = 200 /\
  field (body reply) "user_id" = field (body resp) "user_id" /\
  field (body reply) "name" = Some (lookup_or d "name" JNull).
Proof.
  intros Hcheck H201 Hemail Hpw.
  pose proof (register_outcome generate_password_hash now (JObj d) st) as H.
  unfold register in H201 |- *. fold register_required in H201 |- *.
  destruct (check_required_obj d register_required) as [[f|] Hreq];
    rewrite Hreq in H201 |- *; cbn [bind handle fst] in H201 |- *; [discriminate H201|].
  unfold getitem in H201 |- *.
  destruct (dict_lookup "email" d) as [e|] eqn:He; cbn [bind handle fst] in H201 |- *;
    [|discriminate H201].
  destruct e as [| | | | e | |]; cbn [bind_str bind handle not_null fst] in H201 |- *;
    try discriminate H201.
  destruct (find (fun u => String.eqb (email u) e) (users st)) eqn:Hfind;
    cbn [handle fst] in H201 |- *; [discriminate H201|].
  destruct (dict_lookup "password" d) as [pw|] eqn:Hp; cbn [bind handle fst] in H201 |- *;
    [|discriminate H201].
  destruct pw as [| | | | pw | |]; cbn [as_str bind handle fst] in H201 |- *;
    try discriminate H201.
  destruct (dict_lookup "name" d) as [nm|] eqn:Hn; cbn [bind handle fst] in H201 |- *;
    [|discriminate H201].
  cbn [get_default bind] in H201 |- *.
  destruct (bind_str nm) as [[nm'|]|] eqn:Hnm; cbn [bind handle not_null fst] in H201 |- *;
    try discriminate H201.
  destruct (bind_str (lookup_or d "phone" (JStr ""))) as [ph|] eqn:Hph;
    cbn [bind handle fst] in H201 |- *; [|discriminate H201].
  set (user := mkUser (next_id (map user_pk (users st))) e (generate_password_hash pw)
                      nm' ph now).
  set (reply := login check_password_hash (JObj d') _).
  assert (E : reply = mkResponse (JObj [("message", JStr "Login successful");
                                        ("user_id", JInt (user_pk user));
                                        ("name", JStr (user_name user))]) 200).
  { unfold reply, login. cbn [get get_default bind]. unfold lookup_or at 1.
    rewrite Hemail. cbn [bind_str bind find_user_by_email users].
    rewrite (find_app_new (fun u => String.eqb (email u) e) (users st) user);
      [| now apply find_none_iff | apply String.eqb_refl].
    unfold lookup_or at 1. rewrite Hpw. cbn [password_hash user].
    rewrite Hcheck. reflexivity. }
  rewrite E. split; [reflexivity|]. split; [reflexivity|].
  assert (Enm : nm = JStr nm').
  { destruct nm as [| | | | s | |]; try discriminate Hnm. now injection Hnm as <-. }
  unfold lookup_or. rewrite Hn, Enm. reflexivity.
Qed.

(** A hash that is its password, to run the handlers on. *)
Definition plain_check (pwhash : string) (password : json) : result bool :=
  match password with
  | JStr pw => Ok (String.eqb pwhash pw)
  | _ => Raise "object has no attribute 'encode'"
  end.

Definition bob_request : dict :=
  [("email", JStr "bob@example.com"); ("password", JStr "pw"); ("name", JStr "Bob")].

Lemma login_after_register_witness :
  let (resp, st') := register (fun pw => pw) sample_now (JObj bob_request) sample_store in
  let reply := login plain_check (JObj bob_request) st' in
  status_code reply = 200 /\
  field (body reply) "user_id" = field (body resp) "user_id" /\
  field (body reply) "name" = Some (lookup_or bob_request "name" JNull).
Proof.
  apply (login_after_register (fun pw => pw) plain_check sample_now
           bob_request bob_request sample_store).
  - intros pw. cbn. now rewrite String.eqb_refl.
  - reflexivity.
  - reflexivity.
  - reflexivity.
Defined.

(** A login whose e-mail address belongs to no user, or whose password
    fails the check against the hash of the user it belongs to, is answered
    with 401; a login never gets a 200 unless the check succeeded for a
    stored user with that address. *)
Theorem login_invalid_credentials
        (check_password_hash : string -> json -> result bool)
        (d : dict) (st : Store) (e : string) :
  dict_lookup "email" d = Some (JStr e) ->
  (forall u, In u (users st) -> email u = e ->
             check_password_hash (password_hash u) (lookup_or d "password" JNull)
             = Ok false) ->
  login check_password_hash (JObj d) st = error_response "Invalid credentials" 401.
Proof.
  intros He Hbad. unfold login. cbn [get get_default bind].
  unfold lookup_or at 1. rewrite He. cbn [bind_str bind find_user_by_email].
  destruct (find (fun u => String.eqb (email u) e) (users st)) as [u|] eqn:Hfind;
    [|reflexivity].
  apply find_by_email_in in Hfind as [Hin Hu].
  rewrite (Hbad u Hin Hu). reflexivity.
Qed.

Lemma login_invalid_credentials_witness :
  login plain_check
        (JObj [("email", JStr "ann@example.com"); ("password", JStr "guess")])
        sample_store
  = error_response "Invalid credentials" 401.
Proof.
  apply (login_invalid_credentials plain_check
           [("email", JStr "ann@example.com"); ("password", JStr "guess")]
           sample_store "ann@example.com").
  - reflexivity.
  - intros u [<- | []] _. reflexivity.
Defined.

(** A second registration with the e-mail address of one that succeeded is
    refused with 400 and writes nothing, whatever else it carries. *)
Theorem register_twice
        (generate_password_hash : string -> string)
        (now now' : datetime) (d d' : dict) (st : Store) :
  status_code (fst (register generate_password_hash now (JObj d) st)) = 201 ->
  dict_lookup "email" d' = dict_lookup "email" d ->
  let st1 := snd (register generate_password_hash now (JObj d) st) in
  status_code (fst (register generate_password_hash now' (JObj d') st1)) = 400 /\
  snd (register generate_password_hash now' (JObj d') st1) = st1.
Proof.
  intros H201 Hemail.
  pose proof (register_outcome generate_password_hash now (JObj d) st) as H.
  destruct (register generate_password_hash now (JObj d) st) as [resp st1'].
  cbn [fst snd] in *.
  destruct H as [[_ [user [-> [_ [_ [Hmail [Hnew _]]]]]]] | [[H|H] _]];
    [| rewrite H in H201; discriminate | rewrite H in H201; discriminate].
  unfold getitem in Hmail.
  destruct (dict_lookup "email" d) as [v|] eqn:He; [|discriminate Hmail].
  injection Hmail as ->.
  set (st1 := mkStore (users st ++ [user]) (species st) (lost_birds st)
                      (found_birds st) (sightings st)).
  assert (E : exists msg, register generate_password_hash now' (JObj d') st1
                          = (error_response msg 400, st1)).
  { unfold register. fold register_required.
    destruct (check_required_obj d' register_required) as [[f|] Hreq]; rewrite Hreq;
      cbn [bind handle]; [now eexists|].
    unfold getitem. rewrite Hemail. cbn [bind bind_str not_null users st1].
    rewrite (find_app_new (fun u => String.eqb (email u) (email user)) (users st) user).
    - now eexists.
    - intros y Hy. apply String.eqb_neq. now apply Hnew.
    - apply String.eqb_refl. }
  destruct E as [msg ->]. now split.
Qed.

Lemma register_twice_witness :
  let st1 := snd (register (fun pw => pw) sample_now (JObj bob_request) sample_store) in
  status_code (fst (register (fun pw => pw) sample_now
                             (JObj [("email", JStr "bob@example.com");
                                    ("password", JStr "other"); ("name", JStr "Robert")])
                             st1)) = 400 /\
  snd (register (fun pw => pw) sample_now
                (JObj [("email", JStr "bob@example.com");
                       ("password", JStr "other"); ("name", JStr "Robert")]) st1) = st1.
Proof.
  apply (register_twice (fun pw => pw) sample_now sample_now bob_request
           [("email", JStr "bob@example.com"); ("password", JStr "other");
            ("name", JStr "Robert")] sample_store).
  - reflexivity.
  - reflexivity.
Defined.

(** ** The text search and the case of ASCII letters *)

Fixpoint fold_string (s : string) : string :=
  match s with
  | EmptyString => EmptyString
  | String c r => String (fold_ascii c) (fold_string r)
  end.

Lemma fold_ascii_idem (c : ascii) : fold_ascii (fold_ascii c) = fold_ascii c.
Proof. destruct c as [[] [] [] [] [] [] [] []]; reflexivity. Qed.

Lemma fold_ascii_percent (c : ascii) : Ascii.eqb (fold_ascii c) "%" = Ascii.eqb c "%".
Proof. destruct c as [[] [] [] [] [] [] [] []]; reflexivity. Qed.

Lemma fold_ascii_underscore (c : ascii) : Ascii.eqb (fold_ascii c) "_" = Ascii.eqb c "_".
Proof. destruct c as [[] [] [] [] [] [] [] []]; reflexivity. Qed.

Lemma ci_eqb_fold_l (c a : ascii) : ci_eqb (fold_ascii c) a = ci_eqb c a.
Proof. unfold ci_eqb. now rewrite fold_ascii_idem. Qed.

Lemma ci_eqb_fold_r (c a : ascii) : ci_eqb c (fold_ascii a) = ci_eqb c a.
Proof. unfold ci_eqb. now rewrite fold_ascii_idem. Qed.

Lemma like_cons (c : ascii) (q s : string) :
  like (String c q) s =
  if Ascii.eqb c "%" then
    (like q s || match s with
                 | EmptyString => false
                 | String _ s' => like (String c q) s'
                 end)%bool
  else if Ascii.eqb c "_" then
    match s with
    | EmptyString => false
    | String _ s' => like q s'
    end
  else
    match s with
    | EmptyString => false
    | String a s' => (ci_eqb c a && like q s')%bool
    end.
Proof.
  destruct (Ascii.eqb c "%") eqn:E1.
  - cbn [like]. rewrite E1. destruct s; reflexivity.
  - cbn [like]. rewrite E1. destruct (Ascii.eqb c "_"); reflexivity.
Qed.

Lemma like_fold_pattern (p s : string) : like (fold_string p) s = like p s.
Proof.
  revert s. induction p as [|c p IH]; intros s; [reflexivity|].
  cbn [fold_string]. induction s as [|a s IHs].
  - rewrite !like_cons, fold_ascii_percent, fold_ascii_underscore, IH. reflexivity.
  - rewrite (like_cons (fold_ascii c)), (like_cons c).
    rewrite fold_ascii_percent, fold_ascii_underscore, ci_eqb_fold_l, !IH, IHs.
    reflexivity.
Qed.

Lemma like_fold_text (p s : string) : like p (fold_string s) = like p s.
Proof.
  revert s. induction p as [|c p IH]; intros s; [destruct s; reflexivity|].
  induction s as [|a s IHs]; [reflexivity|].
  cbn [fold_string]. rewrite (like_cons c _ (String _ _)), (like_cons c _ (String a s)).
  change (String (fold_ascii a) (fold_string s)) with (fold_string (String a s)).
  rewrite IH. cbn [fold_string]. rewrite ci_eqb_fold_r, IH, IHs. reflexivity.
Qed.

Lemma fold_string_app (s t : string) :
  fold_string (s ++ t) = fold_string s ++ fold_string t.
Proof. induction s as [|c s IH]; cbn [append fold_string]; [reflexivity | now rewrite IH]. Qed.

Lemma contains_fold (column other : string) :
  contains (fold_string column) other = contains column other /\
  contains column (fold_string other) = contains column other.
Proof.
  unfold contains. split; [apply like_fold_text|].
  change (String "%" (fold_string other ++ "%"))
    with (fold_string (String "%" other) ++ fold_string "%").
  rewrite <- fold_string_app. apply like_fold_pattern.
Qed.

Lemma ci_equal_fold (s t : string) : ci_equal s t = true -> fold_string s = fold_string t.
Proof.
  revert t. induction s as [|c s IH]; intros [|a t] H; try discriminate H; [reflexivity|].
  cbn [ci_equal] in H. apply Bool.andb_true_iff in H as [Hc H].
  cbn [fold_string]. unfold ci_eqb in Hc. apply Ascii.eqb_eq in Hc.
  now rewrite Hc, (IH t H).
Qed.

Lemma fold_string_empty (s : string) : String.eqb (fold_string s) "" = String.eqb s "".
Proof. destruct s; reflexivity. Qed.

(** The search of [get_lost_birds] does not see the case of ASCII letters,
    wildcards or not: two search strings that differ only in it select the
    same rows, and a row is selected or not whatever the case of the
    letters in its name, description and last_seen_location. *)
Theorem search_ignores_ascii_case (s1 s2 : string) (rows : list LostBird) :
  ci_equal s1 s2 = true ->
  search_filter (Some s1) rows = search_filter (Some s2) rows /\
  (forall b,
      search_matches s1 b
      = (contains (fold_string (name b)) s1 || contains (fold_string (description b)) s1
         || contains (fold_string (last_seen_location b)) s1)%bool).
Proof.
  intros H. apply ci_equal_fold in H. split.
  - unfold search_filter.
    rewrite <- (fold_string_empty s1), <- (fold_string_empty s2), H.
    destruct (String.eqb (fold_string s2) ""); [reflexivity|].
    apply filter_ext. intros b. unfold search_matches.
    rewrite <- (proj2 (contains_fold (name b) s1)),
            <- (proj2 (contains_fold (description b) s1)),
            <- (proj2 (contains_fold (last_seen_location b) s1)), H.
    now rewrite !(proj2 (contains_fold _ s2)).
  - intros b. unfold search_matches. now rewrite !(proj1 (contains_fold _ s1)).
Qed.

Lemma search_ignores_ascii_case_witness :
  search_filter (Some "kIWi_") [sample_bird 1 80 100 sample_now]
  = search_filter (Some "KiwI_") [sample_bird 1 80 100 sample_now] /\
  (forall b,
      search_matches "kIWi_" b
      = (contains (fold_string (name b)) "kIWi_"
         || contains (fold_string (description b)) "kIWi_"
         || contains (fold_string (last_seen_location b)) "kIWi_")%bool).
Proof.
  apply (search_ignores_ascii_case "kIWi_" "KiwI_" [sample_bird 1 80 100 sample_now]).
  reflexivity.
Defined.

(** ** The bounding box and the radius *)





(** ** Page numbers out of range *)

Lemma paginate_clamp_page {A} (page per_page : Z) (rows : list A) :
  page < 1 -> paginate page per_page rows = paginate 1 per_page rows.
Proof.
  intros H. unfold paginate. apply Z.ltb_lt in H. now rewrite H.
Qed.

Lemma lost_birds_query_page (args : ListArgs) (st : Store) (p : Z) :
  lost_birds_query (with_page args p) st = lost_birds_query args st.
Proof. reflexivity. Qed.

(** A field of the [pagination] object of a reply. *)
Definition pagination_field (r : Response) (k : string) : option json :=
  match field (body r) "pagination" with
  | Some v => field v k
  | None => None
  end.

(** A page number below 1 is served as page 1: same status, same birds,
    same counts and flags; only the [page] field echoes the number that was
    asked for. *)
Theorem lost_birds_page_below_one (args : ListArgs) (st : Store) (p : Z) :
  p < 1 ->
  let reply := get_lost_birds (with_page args p) st in
  let first := get_lost_birds (with_page args 1) st in
  status_code reply = status_code first /\
  field (body reply) "birds" = field (body first) "birds" /\
  (forall k, k <> "page" -> pagination_field reply k = pagination_field first k) /\
  (status_code reply = 200 -> pagination_field reply "page" = Some (JInt p)).
Proof.
  intros Hp reply first. unfold reply, first, get_lost_birds.
  rewrite !lost_birds_query_page. cbn [with_page arg_page arg_per_page arg_or].
  destruct (lost_birds_query args st) as [rows|m]; cbn [bind handle fst].
  2:{ repeat split; discriminate. }
  rewrite (paginate_clamp_page p _ rows Hp).
  destruct (mapM (bird_data st) (items (paginate 1 (arg_or (arg_per_page args) 20) rows)))
    as [birds|m]; cbn [bind handle fst].
  2:{ repeat split; discriminate. }
  split; [reflexivity|]. split; [reflexivity|]. split; [|reflexivity].
  intros k Hk. unfold pagination_field, pagination_info.
  cbn [body field dict_lookup String.eqb Ascii.eqb Bool.eqb].
  apply String.eqb_neq in Hk. now rewrite Hk.
Qed.

Lemma lost_birds_page_below_one_witness :
  let reply := get_lost_birds (with_page no_args (-3)) far_store in
  let first := get_lost_birds (with_page no_args 1) far_store in
  status_code reply = status_code first /\
  field (body reply) "birds" = field (body first) "birds" /\
  (forall k, k <> "page" -> pagination_field reply k = pagination_field first k) /\
  (status_code reply = 200 -> pagination_field reply "page" = Some (JInt (-3))).
Proof.
  apply (lost_birds_page_below_one no_args far_store (-3)). lia.
Defined.



(** ** A sighting and the listing it is reported for *)









(** ** A new listing in the list *)







(** ** Uploads and the files already stored *)

Lemma read_write_other (p q data : string) (disk : Disk) :
  p <> q -> read_file p (write_file q data disk) = read_file p disk.
Proof.
  intros Hpq. unfold read_file, write_file. cbn [find fst].
  assert (E : String.eqb q p = false) by (apply String.eqb_neq; congruence).
  rewrite E.
  induction disk as [|[k v] disk IH]; [reflexivity|].
  cbn [filter find fst].
  destruct (String.eqb k q) eqn:Ekq; cbn [negb].
  - apply String.eqb_eq in Ekq. subst k. rewrite E. exact IH.
  - cbn [find fst]. destruct (String.eqb k p); [reflexivity|exact IH].
Qed.

(** Whatever an upload is answered with, every stored file other than the
    one under the drawn identifier and the sanitized name reads as before. *)
Theorem upload_touches_one_file
        (secure_filename : string -> string) (resize : string -> option string)
        (uuid : string) (file : FileStorage) (disk : Disk) (p : string) :
  p <> path_join UPLOAD_FOLDER (uuid ++ "_" ++ secure_filename (filename file)) ->
  read_file p (snd (upload_file secure_filename resize uuid (Some file) disk))
  = read_file p disk.
Proof.
  intros Hp. unfold upload_file, save_uploaded_file.
  destruct (String.eqb (filename file) ""); [reflexivity|]. cbn [negb andb].
  destruct (allowed_file (filename file)); [|reflexivity].
  unfold resize_image. rewrite read_write_file.
  destruct (resize (content file)) as [data|]; cbn [snd].
  - now rewrite !read_write_other.
  - now rewrite read_write_other.
Qed.

Definition keep_image (data : string) : option string :=
  if prefix "PNG" data then Some ("small " ++ data) else None.

Definition sample_disk : Disk := [("uploads/old_cat.png", "PNG cat")].

Lemma upload_touches_one_file_witness :
  read_file "uploads/old_cat.png"
            (snd (upload_file (fun n => n) keep_image "u1"
                              (Some (mkFileStorage "kiwi.png" "PNG kiwi")) sample_disk))
  = read_file "uploads/old_cat.png" sample_disk.
Proof.
  apply (upload_touches_one_file (fun n => n) keep_image "u1"
           (mkFileStorage "kiwi.png" "PNG kiwi") sample_disk "uploads/old_cat.png").
  discriminate.
Defined.

(** An upload is answered with 200 only for a file name with an allowed
    final extension whose content the resizing accepts; the file then read
    under the name of the reply is the resized content. *)
Theorem upload_ok_stores_resized
        (secure_filename : string -> string) (resize : string -> option string)
        (uuid : string) (file : FileStorage) (disk : Disk) :
  status_code (fst (upload_file secure_filename resize uuid (Some file) disk)) = 200 ->
  has_allowed_extension (filename file) /\
  exists fname data,
    field (body (fst (upload_file secure_filename resize uuid (Some file) disk))) "filename"
    = Some (JStr fname) /\
    resize (content file) = Some data /\
    read_file (path_join UPLOAD_FOLDER fname)
              (snd (upload_file secure_filename resize uuid (Some file) disk))
    = Some data.
Proof.
  unfold upload_file, save_uploaded_file.
  destruct (String.eqb (filename file) ""); [discriminate|]. cbn [negb andb].
  destruct (allowed_file (filename file)) eqn:Ha; [|discriminate].
  unfold resize_image. rewrite read_write_file.
  destruct (resize (content file)) as [data|]; cbn [fst snd status_code]; [|discriminate].
  intros _. split; [now apply allowed_file_spec|].
  eexists. exists data. split; [reflexivity|]. split; [reflexivity|].
  apply read_write_file.
Qed.

Lemma upload_ok_stores_resized_witness :
  has_allowed_extension "kiwi.png" /\
  exists fname data,
    field (body (fst (upload_file (fun n => n) keep_image "u1"
                                  (Some (mkFileStorage "kiwi.png" "PNG kiwi")) sample_disk)))
          "filename"
    = Some (JStr fname) /\
    keep_image "PNG kiwi" = Some data /\
    read_file (path_join UPLOAD_FOLDER fname)
              (snd (upload_file (fun n => n) keep_image "u1"
                                (Some (mkFileStorage "kiwi.png" "PNG kiwi")) sample_disk))
    = Some data.
Proof.
  apply (upload_ok_stores_resized (fun n => n) keep_image "u1"
           (mkFileStorage "kiwi.png" "PNG kiwi") sample_disk).
  reflexivity.
Defined.

(** ** Statistics after a write *)

Lemma get_statistics_reply (minus_days : datetime -> Z -> datetime)
      (now : datetime) (st : Store) :
  exists recent_lost recent_found rate,
    get_statistics minus_days now st
    = mkResponse (JObj [("total_lost", JInt (count (lost_birds st)));
                        ("total_found", JInt (count (found_birds st)));
                        ("total_reunited",
                         JInt (count (status_filter "reunited" (lost_birds st))));
                        ("total_sightings", JInt (count (sightings st)));
                        ("recent_lost", JInt recent_lost);
                        ("recent_found", JInt recent_found);
                        ("success_rate", rate)]) 200.
Proof.
  unfold get_statistics. rewrite success_rate_value. cbn [bind handle fst].
  eexists. eexists. eexists. reflexivity.
Qed.

Lemma count_app {A} (l : list A) (x : A) : count (l ++ [x]) = count l + 1.
Proof. unfold count. rewrite length_app. cbn [List.length]. lia. Qed.

(** The number a statistics reply gives under a key. *)
Definition stat (r : Response) (k : string) : Z :=
  match field (body r) k with
  | Some (JInt n) => n
  | _ => 0
  end.

(** The statistics count what the create handlers write: a lost-bird
    request raises total_lost by one exactly when it is answered with 201,
    a sighting request does the same to total_sightings, and neither
    changes total_reunited or the other totals. *)
Theorem statistics_count_writes (minus_days : datetime -> Z -> datetime)
        (now at_ : datetime) (data : json) (st : Store) :
  let stats := get_statistics minus_days at_ in
  (let (resp, st') := create_lost_bird now data st in
   stat (stats st') "total_lost"
   = stat (stats st) "total_lost" + (if status_code resp =? 201 then 1 else 0) /\
   stat (stats st') "total_reunited" = stat (stats st) "total_reunited" /\
   stat (stats st') "total_sightings" = stat (stats st) "total_sightings" /\
   stat (stats st') "total_found" = stat (stats st) "total_found") /\
  (let (resp, st') := create_sighting now data st in
   stat (stats st') "total_sightings"
   = stat (stats st) "total_sightings" + (if status_code resp =? 201 then 1 else 0) /\
   stat (stats st') "total_lost" = stat (stats st) "total_lost" /\
   stat (stats st') "total_reunited" = stat (stats st) "total_reunited" /\
   stat (stats st') "total_found" = stat (stats st) "total_found").
Proof.
  intros stats.
  assert (Hstat : forall s,
             stat (stats s) "total_lost" = count (lost_birds s) /\
             stat (stats s) "total_found" = count (found_birds s) /\
             stat (stats s) "total_reunited"
             = count (status_filter "reunited" (lost_birds s)) /\
             stat (stats s) "total_sightings" = count (sightings s)).
  { intros s. unfold stats.
    destruct (get_statistics_reply minus_days at_ s) as [rl [rf [rate ->]]].
    repeat split. }
  split.
  - pose proof (create_lost_bird_outcome now data st) as H.
    destruct (create_lost_bird now data st) as [resp st'].
    destruct (Hstat st) as [-> [-> [-> ->]]]. destruct (Hstat st') as [-> [-> [-> ->]]].
    destruct H as [[H201 [row [-> [_ [_ [Hrow _]]]]]] | [Hcode ->]].
    + rewrite H201. cbn [lost_birds found_birds sightings Z.eqb Pos.eqb].
      rewrite count_app. unfold status_filter. rewrite filter_app. cbn [filter].
      rewrite Hrow. cbn [String.eqb Ascii.eqb Bool.eqb]. rewrite app_nil_r.
      repeat split.
    + destruct Hcode as [-> | ->]; cbn [Z.eqb Pos.eqb]; repeat split; lia.
  - pose proof (create_sighting_outcome now data st) as H.
    destruct (create_sighting now data st) as [resp st'].
    destruct (Hstat st) as [-> [-> [-> ->]]]. destruct (Hstat st') as [-> [-> [-> ->]]].
    destruct H as [[H201 [row [-> _]]] | [Hcode ->]].
    + rewrite H201. cbn [lost_birds found_birds sightings Z.eqb Pos.eqb].
      rewrite count_app. repeat split.
    + destruct Hcode as [-> | ->]; cbn [Z.eqb Pos.eqb]; repeat split; lia.
Qed.

(** ** Required fields *)

(** The first required field that the body does not give a truthy value:
    absent, [null], [false], zero, or an empty string, list or object. *)
Definition first_missing (d : dict) (fields : list string) : option string :=
  find (fun f => negb (truthy (lookup_or d f JNull))) fields.

Lemma check_required_first (d : dict) (fields : list string) :
  check_required (JObj d) fields = Ok (first_missing d fields).
Proof.
  induction fields as [|f fs IH]; [reflexivity|].
  cbn [check_required get get_default bind]. unfold first_missing. cbn [find].
  destruct (truthy (lookup_or d f JNull)); cbn [negb]; [exact IH | reflexivity].
Qed.

Definition sighting_required : list string :=
  ["lost_bird_id"; "user_id"; "location"; "sighting_date"].

Ltac run_binds :=
  repeat match goal with
         | |- context [bind ?c _] => destruct c as [?|?]; cbn [bind handle fst snd]
         end.

(** A request object that gives one of the required fields no truthy value
    is answered with 400 and the name of the first such field, and nothing
    is written; the two create handlers answer with 400 in no other case,
    and [register] only for an e-mail address that is registered already. *)
Theorem missing_required_field (generate_password_hash : string -> string)
        (now : datetime) (d : dict) (st : Store) :
  match first_missing d register_required with
  | Some f => register generate_password_hash now (JObj d) st
              = (error_response (f ++ " is required") 400, st)
  | None => status_code (fst (register generate_password_hash now (JObj d) st)) = 400 ->
            register generate_password_hash now (JObj d) st
            = (error_response "Email already registered" 400, st)
  end /\
  match first_missing d lost_bird_required with
  | Some f => create_lost_bird now (JObj d) st
              = (error_response (f ++ " is required") 400, st)
  | None => status_code (fst (create_lost_bird now (JObj d) st)) <> 400
  end /\
  match first_missing d sighting_required with
  | Some f => create_sighting now (JObj d) st
              = (error_response (f ++ " is required") 400, st)
  | None => status_code (fst (create_sighting now (JObj d) st)) <> 400
  end.
Proof.
  split; [|split].
  - unfold register.
    change ["email"; "password"; "name"] with register_required.
    rewrite check_required_first.
    destruct (first_missing d register_required); [reflexivity|].
    cbn [bind].
    destruct (getitem (JObj d) "email") as [e|m]; cbn [bind handle fst];
      [|discriminate].
    destruct (bind_str e) as [e'|m]; cbn [bind handle fst]; [|discriminate].
    destruct (not_null "user.email" e') as [e''|m]; cbn [bind handle fst];
      [|discriminate].
    destruct (find _ (users st)); [reflexivity|].
    run_binds; discriminate.
  - unfold create_lost_bird.
    change ["user_id"; "name"; "description"; "last_seen_location"; "lost_date"]
      with lost_bird_required.
    rewrite check_required_first.
    destruct (first_missing d lost_bird_required); [reflexivity|].
    cbn [bind]. run_binds; discriminate.
  - unfold create_sighting.
    change ["lost_bird_id"; "user_id"; "location"; "sighting_date"]
      with sighting_required.
    rewrite check_required_first.
    destruct (first_missing d sighting_required); [reflexivity|].
    cbn [bind]. run_binds; discriminate.
Qed.

(** A body that is not a JSON object (a list, a string, a number, [null])
    is answered with 500 by the three handlers, and nothing is written. *)
Theorem body_not_an_object (generate_password_hash : string -> string)
        (now : datetime) (data : json) (st : Store) :
  (forall d, data <> JObj d) ->
  (status_code (fst (register generate_password_hash now data st)) = 500 /\
   snd (register generate_password_hash now data st) = st) /\
  (status_code (fst (create_lost_bird now data st)) = 500 /\
   snd (create_lost_bird now data st) = st) /\
  (status_code (fst (create_sighting now data st)) = 500 /\
   snd (create_sighting now data st) = st).
Proof.
  intros H. destruct data as [| | | | | |d]; try (repeat split; reflexivity).
  now elim (H d).
Qed.

Lemma body_not_an_object_witness :
  (status_code (fst (register (fun pw => pw) sample_now (JArr [JStr "a"]) sample_store)) = 500 /\
   snd (register (fun pw => pw) sample_now (JArr [JStr "a"]) sample_store) = sample_store) /\
  (status_code (fst (create_lost_bird sample_now (JArr [JStr "a"]) sample_store)) = 500 /\
   snd (create_lost_bird sample_now (JArr [JStr "a"]) sample_store) = sample_store) /\
  (status_code (fst (create_sighting sample_now (JArr [JStr "a"]) sample_store)) = 500 /\
   snd (create_sighting sample_now (JArr [JStr "a"]) sample_store) = sample_store).
Proof.
  apply (body_not_an_object (fun pw => pw) sample_now (JArr [JStr "a"]) sample_store).
  discriminate.
Defined.

(** ** Species: [init_db] and GET /api/species *)

Section Species.

(** The Thai names and descriptions of the three sample species; the text
    lies outside the alphabet of [string] and is kept abstract. *)
Variables (name_th1 name_th2 name_th3 : string).
Variables (description1 description2 description3 : string).

Record SpeciesData : Type := mkSpeciesData {
  sd_name_th : string;
  sd_name_en : string;
  sd_description : string;
  sd_characteristics : json
}.

Definition sample_species : list SpeciesData :=
  [mkSpeciesData name_th1 "Rose-ringed Parakeet" description1
     (JObj [("size", JStr "medium");
            ("colors", JArr [JStr "green"; JStr "pink"; JStr "black"]);
            ("habitat", JStr "urban, gardens")]);
   mkSpeciesData name_th2 "Red-whiskered Bulbul" description2
     (JObj [("size", JStr "small");
            ("colors", JArr [JStr "brown"; JStr "white"; JStr "red"; JStr "black"]);
            ("habitat", JStr "gardens, parks")]);
   mkSpeciesData name_th3 "Oriental Magpie-Robin" description3
     (JObj [("size", JStr "small");
            ("colors", JArr [JStr "black"; JStr "white"]);
            ("habitat", JStr "gardens, urban areas")])].

(** One [db.session.add] of a [BirdSpecies] built from a sample, with the
    key the insert gives the row. *)
Definition add_species (rows : list BirdSpecies) (x : SpeciesData) : list BirdSpecies :=
  (rows ++ [mkBirdSpecies (next_id (map species_pk rows)) (sd_name_th x)
                          (Some (sd_name_en x)) (Some (sd_description x))
                          (Some (dumps (sd_characteristics x)))])%list.

(** [init_db]: the sample species are added when [BirdSpecies.query.first()]
    finds no row. *)
Definition init_db (st : Store) : Store :=
  match species st with
  | _ :: _ => st
  | [] => mkStore (users st) (fold_left add_species sample_species (species st))
                  (lost_birds st) (found_birds st) (sightings st)
  end.

Definition species_data (s : BirdSpecies) : result json :=
  ch <- loads_or (species_characteristics s) (JObj []) ;;
  Ok (JObj [("id", JInt (species_pk s));
            ("name_th", JStr (name_th s));
            ("name_en", json_of_str (name_en s));
            ("description", json_of_str (species_description s));
            ("characteristics", ch)]).

Definition get_species (st : Store) : Response :=
  fst (handle tt (
    species_list <- mapM species_data (species st) ;;
    Ok (mkResponse (JArr species_list) 200, tt))).

End Species.


(** [init_db] seeds once: run again, or on a database that has a species
    row, it changes nothing; it never touches another table, keeps the
    species rows it finds, and leaves at least one species behind. *)
Theorem init_db_seeds_once
        (t1 t2 t3 d1 d2 d3 : string) (st : Store) :
  let init := init_db t1 t2 t3 d1 d2 d3 in
  init (init st) = init st /\
  (exists added, species (init st) = (species st ++ added)%list /\
                 (added = [] <-> species st <> [])) /\
  species (init st) <> [] /\
  users (init st) = users st /\ lost_birds (init st) = lost_birds st /\
  found_birds (init st) = found_birds st /\ sightings (init st) = sightings st.
Proof.
  intros init. unfold init, init_db.
  destruct (species st) as [|s rows] eqn:E.
  - cbn [species fold_left sample_species add_species app].
    split; [reflexivity|]. split.
    + eexists. split; [reflexivity|]. split; [discriminate | intros H; now elim H].
    + repeat split. discriminate.
  - cbn beta iota. rewrite !E. split; [reflexivity|]. split.
    + exists []. split; [now rewrite app_nil_r|]. split; [discriminate | reflexivity].
    + repeat split. discriminate.
Qed.


(** The entry the species list gives a sample under an id. *)
Definition sample_entry (pk : Z) (x : SpeciesData) : json :=
  JObj [("id", JInt pk);
        ("name_th", JStr (sd_name_th x));
        ("name_en", JStr (sd_name_en x));
        ("description", JStr (sd_description x));
        ("characteristics", sd_characteristics x)].

(** On a database without species, [init_db] makes the species list the
    three samples under the ids 1, 2 and 3, each with the characteristics
    object it was written from. *)
Theorem species_after_init_db
        (t1 t2 t3 d1 d2 d3 : string) (st : Store) :
  species st = [] ->
  get_species (init_db t1 t2 t3 d1 d2 d3 st)
  = mkResponse (JArr (map (fun px => sample_entry (fst px) (snd px))
                          (combine [1; 2; 3] (sample_species t1 t2 t3 d1 d2 d3)))) 200.
Proof.
  intros H. unfold init_db, get_species. rewrite H.
  cbn [species fold_left sample_species add_species app map species_pk next_id
       fold_right sd_name_th sd_name_en sd_description sd_characteristics mapM].
  unfold species_data.
  cbn [species_characteristics species_pk name_th name_en species_description].
  rewrite !loads_or_dumps by (cbn; repeat split; repeat constructor; cbn; intuition discriminate).
  reflexivity.
Qed.

Lemma species_after_init_db_witness :
  get_species (init_db "nok 1" "nok 2" "nok 3" "d 1" "d 2" "d 3" empty_store)
  = mkResponse (JArr (map (fun px => sample_entry (fst px) (snd px))
                          (combine [1; 2; 3]
                                   (sample_species "nok 1" "nok 2" "nok 3" "d 1" "d 2" "d 3"))))
               200.
Proof.
  apply (species_after_init_db "nok 1" "nok 2" "nok 3" "d 1" "d 2" "d 3" empty_store).
  reflexivity.
Defined.
